(** * DVFS frequency-limit arbitration of kernel/power/main.c

    A shallow embedding of the CONFIG_DVFS_LIMIT part of
    [kernel/power/main.c]: the three globals [cpufreq_max_limit_val],
    [cpufreq_min_limit_val] and [min_replacement], the table lookup
    [get_cpufreq_level], the two sysfs store handlers and the cpufreq
    policy notifier.  Calls into other subsystems ([printk],
    [prcmu_qos_update_requirement], [cpufreq_update_policy]) are recorded
    as events of a trace. *)

From Stdlib Require Import ZArith List String Bool Lia.
From Stdlib Require Import Sorted Ascii.
Import ListNotations.
Local Open Scope Z_scope.

(** ** Machine integers *)

(** [(unsigned int)v] for a 32-bit [int] v. *)
Definition to_uint (v : Z) : Z := v mod 2 ^ 32.

(** ** Events sent to the collaborators *)

Inductive event : Type :=
| Printk (fmt : string)      (* printk / pr_info; the format text only *)
| QosUpdate (value : Z)      (* prcmu_qos_update_requirement(PRCMU_QOS_ARM_KHZ, "power", value) *)
| PolicyUpdate (cpu : nat).  (* cpufreq_update_policy(cpu) *)

(** ** The globals of the file, with the trace of events (latest first) *)

Record dvfs : Type := mkDvfs {
  cpufreq_max_limit_val : Z;
  cpufreq_min_limit_val : Z;
  min_replacement : Z;
  trace : list event
}.

(** [static int cpufreq_max_limit_val = -1; cpufreq_min_limit_val = -1;
    min_replacement = 0;] *)
Definition dvfs_init : dvfs := mkDvfs (-1) (-1) 0 [].

(** What the handlers see of the rest of the kernel at one call:
    the result of [cpufreq_frequency_get_table(0)] ([None] is NULL, a list
    holds the [frequency] fields of the array in order), the online CPUs
    and the module parameter [debug_mask]. *)
Record env : Type := mkEnv {
  table : option (list Z);
  online : list nat;
  debug_mask : bool
}.

(** The fields of [struct cpufreq_policy] (declared in linux/cpufreq.h)
    that this file reads or writes, with the policy floor and the cpu. *)
Record cpufreq_policy : Type := mkPolicy {
  cpu : nat;
  cpuinfo_min_freq : Z;
  cpuinfo_max_freq : Z;
  min : Z;
  max : Z
}.

Definition set_policy_max (p : cpufreq_policy) (v : Z) : cpufreq_policy :=
  mkPolicy (cpu p) (cpuinfo_min_freq p) (cpuinfo_max_freq p) (min p) v.

Inductive dvfs_lock_request_type : Type :=
| DVFS_MIN_LOCK_REQ
| DVFS_MAX_LOCK_REQ.

(** [#define VALID_LEVEL 1] *)
Definition VALID_LEVEL : Z := 1.

(** ** A state monad over the globals *)

Definition M (A : Type) : Type := dvfs -> A * dvfs.

Definition ret {A} (a : A) : M A := fun s => (a, s).

Definition bind {A B} (m : M A) (k : A -> M B) : M B :=
  fun s => let (a, s') := m s in k a s'.

Declare Scope dvfs_scope.
Delimit Scope dvfs_scope with dvfs.
Notation "x <- m ;; k" := (bind m (fun x => k))
  (at level 61, m at next level, right associativity) : dvfs_scope.
Notation "m ;; k" := (bind m (fun _ => k))
  (at level 61, right associativity) : dvfs_scope.
Local Open Scope dvfs_scope.

Definition emit (e : event) : M unit :=
  fun s => (tt, mkDvfs (cpufreq_max_limit_val s) (cpufreq_min_limit_val s)
                       (min_replacement s) (e :: trace s)).

Definition printk (fmt : string) : M unit := emit (Printk fmt).

Definition prcmu_qos_update_requirement (value : Z) : M unit :=
  emit (QosUpdate value).

Definition cpufreq_update_policy (c : nat) : M unit := emit (PolicyUpdate c).

Definition get_max : M Z := fun s => (cpufreq_max_limit_val s, s).
Definition get_min : M Z := fun s => (cpufreq_min_limit_val s, s).
Definition get_replacement : M Z := fun s => (min_replacement s, s).

Definition set_max (v : Z) : M unit :=
  fun s => (tt, mkDvfs v (cpufreq_min_limit_val s) (min_replacement s) (trace s)).
Definition set_min (v : Z) : M unit :=
  fun s => (tt, mkDvfs (cpufreq_max_limit_val s) v (min_replacement s) (trace s)).
Definition set_replacement (v : Z) : M unit :=
  fun s => (tt, mkDvfs (cpufreq_max_limit_val s) (cpufreq_min_limit_val s) v (trace s)).

Definition when (b : bool) (m : M unit) : M unit := if b then m else ret tt.

(** [for_each_online_cpu(cpu) body(cpu);] *)
Fixpoint for_each_online_cpu (cpus : list nat) (body : nat -> M unit) : M unit :=
  match cpus with
  | [] => ret tt
  | c :: rest => body c ;; for_each_online_cpu rest body
  end.

(** ** Observations on a trace *)

(** The value of the latest [prcmu_qos_update_requirement] call. *)
Fixpoint last_qos (t : list event) : option Z :=
  match t with
  | [] => None
  | QosUpdate v :: _ => Some v
  | _ :: rest => last_qos rest
  end.

Definition is_printk (e : event) : bool :=
  match e with Printk _ => true | _ => false end.

(** The calls that leave the file: QoS pushes and policy updates. *)
Definition outgoing (t : list event) : list event :=
  filter (fun e => negb (is_printk e)) t.

Section Dvfs.

(** Constants of kernel headers that are not part of this file:
    linux/cpufreq.h, linux/notifier.h, errno and dbx500-prcmu.h. *)
Variable CPUFREQ_TABLE_END : Z.
Variable CPUFREQ_ENTRY_INVALID : Z.
Variable CPUFREQ_ADJUST : Z.
Variable NOTIFY_DONE : Z.
Variable EINVAL : Z.
Variable PRCMU_QOS_DEFAULT_VALUE : Z.

(** [table[i].frequency]; the array ends with an entry
    [CPUFREQ_TABLE_END], which is what the position after the listed
    entries holds. *)
Definition frequency (tbl : list Z) (i : nat) : Z :=
  nth i tbl CPUFREQ_TABLE_END.

(** [for (table_length = 0; table[table_length].frequency !=
    CPUFREQ_TABLE_END; table_length++) ;] *)
Fixpoint table_length (tbl : list Z) : nat :=
  match tbl with
  | [] => O
  | f :: rest => if f =? CPUFREQ_TABLE_END then O else S (table_length rest)
  end.

(** The DVFS_MIN_LOCK_REQ loop of [get_cpufreq_level]: from index 0
    up to the terminator, the first entry [>= freq]. *)
Fixpoint min_lock_scan (tbl : list Z) (freq : Z) : option Z :=
  match tbl with
  | [] => None
  | f :: rest =>
      if f =? CPUFREQ_TABLE_END then None
      else if f >=? freq then Some f
      else min_lock_scan rest freq
  end.

(** The DVFS_MAX_LOCK_REQ loop: [i] entries remain below the cursor,
    the source's index is [i - 1]; the first entry [<= freq] going
    down. *)
Fixpoint max_lock_scan (tbl : list Z) (i : nat) (freq : Z) : option Z :=
  match i with
  | O => None
  | S j =>
      if frequency tbl j <=? freq then Some (frequency tbl j)
      else max_lock_scan tbl j freq
  end.

Definition level_scan (tbl : list Z) (freq : Z)
           (req_type : dvfs_lock_request_type) : option Z :=
  match req_type with
  | DVFS_MIN_LOCK_REQ => min_lock_scan tbl freq
  | DVFS_MAX_LOCK_REQ => max_lock_scan tbl (table_length tbl) freq
  end.

(** The printing loop of [cpufreq_table_show], [i] entries left below
    the cursor: the frequencies written to the buffer, in the order
    written. *)
Fixpoint table_show_scan (tbl : list Z) (i : nat) (min_freq max_freq : Z)
  : list Z :=
  match i with
  | O => []
  | S j =>
      if (frequency tbl j =? CPUFREQ_ENTRY_INVALID)
         || (frequency tbl j >? max_freq)
         || (frequency tbl j <? min_freq)
      then table_show_scan tbl j min_freq max_freq
      else frequency tbl j :: table_show_scan tbl j min_freq max_freq
  end.

(** [cpufreq_table_show]: the numbers of the line it writes ([None]
    when it writes the failure text instead); [policy] is the result of
    [cpufreq_cpu_get(0)]. *)
Definition cpufreq_table_show (e : env) (policy : option cpufreq_policy)
  : option (list Z) :=
  match table e with
  | None => None
  | Some tbl =>
      let min_freq :=
        match policy with Some p => cpuinfo_min_freq p | None => to_uint (-1) end in
      let max_freq :=
        match policy with Some p => cpuinfo_max_freq p | None => 0 end in
      Some (table_show_scan tbl (table_length tbl) min_freq max_freq)
  end.

Definition level_fmt (req_type : dvfs_lock_request_type) : string :=
  match req_type with
  | DVFS_MIN_LOCK_REQ => "%s: MIN_LOCK req_freq(%d), matched_freq(%d)"
  | DVFS_MAX_LOCK_REQ => "%s: MAX_LOCK req_freq(%d), matched_freq(%d)"
  end.

(** [get_cpufreq_level(freq, &level, req_type)]: the returned int and
    what was written to [*level], if anything. *)
Definition get_cpufreq_level (e : env) (freq : Z)
           (req_type : dvfs_lock_request_type) : M (Z * option Z) :=
  match table e with
  | None =>
      printk "%s: Failed to get the cpufreq table" ;;
      ret (- EINVAL, None)
  | Some tbl =>
      match level_scan tbl freq req_type with
      | Some l =>
          when (debug_mask e) (printk (level_fmt req_type)) ;;
          ret (VALID_LEVEL, Some l)
      | None => ret (- EINVAL, None)
      end
  end.

(** [cpufreq_max_limit_store]; [buf] is what [sscanf(buf, "%d", &val)]
    made of the text ([None] when it did not return 1, otherwise the
    int [val]), [n] the byte count of the write. *)
Definition cpufreq_max_limit_store (e : env) (buf : option Z) (n : Z) : M Z :=
  match buf with
  | None =>
      printk "%s: Invalid cpufreq format" ;;
      ret (- EINVAL)
  | Some val =>
      (if val =? -1 then
         cur <- get_max ;;
         if negb (cur =? -1) then
           set_max (-1) ;;
           for_each_online_cpu (online e) cpufreq_update_policy ;;
           r <- get_replacement ;;
           mn <- get_min ;;
           if negb (r =? 0) && negb (mn =? -1) then
             prcmu_qos_update_requirement mn ;;
             set_replacement 0
           else ret tt
         else
           printk "%s: Unlock request is ignored"
       else
         lv <- get_cpufreq_level e (to_uint val) DVFS_MAX_LOCK_REQ ;;
         if fst lv =? VALID_LEVEL then
           set_max val ;;
           mn <- get_min ;;
           mx <- get_max ;;
           (if negb (mn =? -1) && (mn >? mx) then
              when (debug_mask e)
                   (printk "%s: Min lock forced to %d because of Max lock") ;;
              prcmu_qos_update_requirement mx ;;
              set_replacement 1
            else ret tt) ;;
           for_each_online_cpu (online e) cpufreq_update_policy
         else
           printk "%s: Lock request is invalid") ;;
      ret n
  end.

(** [cpufreq_min_limit_store] *)
Definition cpufreq_min_limit_store (e : env) (buf : option Z) (n : Z) : M Z :=
  match buf with
  | None =>
      printk "%s: Invalid cpufreq format" ;;
      ret (- EINVAL)
  | Some val =>
      (if val =? -1 then
         cur <- get_min ;;
         if negb (cur =? -1) then
           set_min (-1) ;;
           prcmu_qos_update_requirement PRCMU_QOS_DEFAULT_VALUE ;;
           set_replacement 0
         else
           printk "%s: Unlock request is ignored"
       else
         lv <- get_cpufreq_level e (to_uint val) DVFS_MIN_LOCK_REQ ;;
         if fst lv =? VALID_LEVEL then
           set_min val ;;
           mn <- get_min ;;
           mx <- get_max ;;
           if negb (mx =? -1) && (mn >? mx) then
             when (debug_mask e)
                  (printk "%s: Min lock forced to %d because of Max lock") ;;
             prcmu_qos_update_requirement mx ;;
             set_replacement 1
           else
             prcmu_qos_update_requirement mn
         else
           printk "%s: Lock request is invalid") ;;
      ret n
  end.

(** [dvfs_cpufreq_notifier(nb, event, data)] with [data] the policy:
    the returned int and the policy afterwards.  [policy->max] is an
    unsigned int, so the comparison with and the assignment of the int
    [cpufreq_max_limit_val] go through [to_uint].  The index
    [table_length - 1] is computed on unsigned int; for an empty table
    the source reads far outside the array, where the model reads the
    terminator value. *)
Definition dvfs_cpufreq_notifier (e : env) (ev : Z) (policy : cpufreq_policy)
  : M (Z * cpufreq_policy) :=
  if negb (ev =? CPUFREQ_ADJUST) then ret (NOTIFY_DONE, policy)
  else
    match table e with
    | None =>
        printk "%s: Failed to get the cpufreq table" ;;
        ret (- EINVAL, policy)
    | Some tbl =>
        lim <- get_max ;;
        if negb (lim =? -1) && (max policy >? to_uint lim) then
          ret (NOTIFY_DONE, set_policy_max policy (to_uint lim))
        else if lim =? -1 then
          ret (NOTIFY_DONE,
               set_policy_max policy
                 (frequency tbl
                    (Z.to_nat (to_uint (Z.of_nat (table_length tbl) - 1)))))
        else ret (NOTIFY_DONE, policy)
    end.

(** ** Sequences of writes to the two attribute files *)

Inductive request : Type :=
| MaxLimitStore (buf : option Z) (n : Z)
| MinLimitStore (buf : option Z) (n : Z).

Definition step (e : env) (r : request) : M Z :=
  match r with
  | MaxLimitStore buf n => cpufreq_max_limit_store e buf n
  | MinLimitStore buf n => cpufreq_min_limit_store e buf n
  end.

(** The globals after a sequence of writes, each under its own
    environment. *)
Fixpoint run (rs : list (env * request)) (s : dvfs) : dvfs :=
  match rs with
  | [] => s
  | (e, r) :: rest => run rest (snd (step e r s))
  end.

Definition reachable (s : dvfs) : Prop :=
  exists rs, s = run rs dvfs_init.

End Dvfs.

(** The pure part of [get_cpufreq_level]: the level it writes when it
  returns VALID_LEVEL for the request [val] of a store handler. *)
Definition resolve (TABLE_END : Z) (e : env) (val : Z)
         (req_type : dvfs_lock_request_type) : option Z :=
match table e with
| None => None
| Some tbl => level_scan TABLE_END tbl (to_uint val) req_type
end.

(** The globals of a state, without its trace. *)
Definition globals (s : dvfs) : Z * Z * Z :=
(cpufreq_max_limit_val s, cpufreq_min_limit_val s, min_replacement s).

Definition with_trace (s : dvfs) (t : list event) : dvfs :=
mkDvfs (cpufreq_max_limit_val s) (cpufreq_min_limit_val s)
       (min_replacement s) t.

(** The flag is only up while both limits are locked. *)
Definition replacement_inv (s : dvfs) : Prop :=
min_replacement s <> 0 ->
cpufreq_min_limit_val s <> -1 /\ cpufreq_max_limit_val s <> -1.

(** The debug message of a handler, present when [debug_mask] is set. *)
Definition dbg (e : env) (fmt : string) (t : list event) : list event :=
  if debug_mask e then Printk fmt :: t else t.

(** The trace after [for_each_online_cpu(cpu) cpufreq_update_policy(cpu)]. *)
Definition policy_updates (e : env) (t : list event) : list event :=
  rev (map PolicyUpdate (online e)) ++ t.

(** ** The header constants as mainline Linux defines them, for concrete runs *)
Module Linux.

(** [~1] as unsigned int *)
Definition CPUFREQ_TABLE_END : Z := 4294967294.
(** [~0] as unsigned int *)
Definition CPUFREQ_ENTRY_INVALID : Z := 4294967295.
Definition CPUFREQ_ADJUST : Z := 0.
Definition NOTIFY_DONE : Z := 0.
Definition EINVAL : Z := 22.
Definition PRCMU_QOS_DEFAULT_VALUE : Z := -1.

Definition max_store := cpufreq_max_limit_store CPUFREQ_TABLE_END EINVAL.
Definition min_store :=
  cpufreq_min_limit_store CPUFREQ_TABLE_END EINVAL PRCMU_QOS_DEFAULT_VALUE.
Definition notifier :=
  dvfs_cpufreq_notifier CPUFREQ_TABLE_END CPUFREQ_ADJUST NOTIFY_DONE EINVAL.
Definition run :=
  run CPUFREQ_TABLE_END EINVAL PRCMU_QOS_DEFAULT_VALUE.
Definition resolve := resolve CPUFREQ_TABLE_END.

(** The table of the spec's scenario, lowest first, two CPUs online. *)
Definition scenario_table : list Z := [100; 200; 300; 400; 500].
Definition scenario : env := mkEnv (Some scenario_table) [0%nat; 1%nat] false.

(** A table whose middle entry is marked invalid. *)
Definition holed_table : list Z := [100; CPUFREQ_ENTRY_INVALID; 300].
Definition holed : env := mkEnv (Some holed_table) [0%nat; 1%nat] false.

(** A table whose top entry is marked invalid. *)
Definition capped_table : list Z := [100; 200; CPUFREQ_ENTRY_INVALID].
Definition capped : env := mkEnv (Some capped_table) [0%nat; 1%nat] false.

(** Two writes after which the requested minimum is above the requested
    maximum. *)
Definition conflict_run : list (env * request) :=
  [(scenario, MinLimitStore (Some 250) 4); (scenario, MaxLimitStore (Some 150) 4)].

Definition conflict_state : dvfs := run conflict_run dvfs_init.

Definition some_policy : cpufreq_policy := mkPolicy 0 100 500 100 200.

End Linux.

(** ** The pm_async, pm_trace and pm_test attributes *)

(** [pm_async_store] on the global [pm_async_enabled]; [buf] is what
    [strict_strtoul(buf, 10, &val)] made of the text: [None] when it
    returned an error, otherwise the unsigned long [val].  The result is
    the returned value and the global afterwards. *)
Definition pm_async_store (EINVAL : Z) (buf : option N) (n : Z)
           (pm_async_enabled : Z) : Z * Z :=
  match buf with
  | None => (- EINVAL, pm_async_enabled)
  | Some val =>
      if (1 <? val)%N then (- EINVAL, pm_async_enabled)
      else (n, Z.of_N val)
  end.

(** [int pm_async_enabled = 1;] *)
Definition pm_async_init : Z := 1.

(** [pm_trace_store] on the global [pm_trace_enabled]; [buf] is what
    [sscanf(buf, "%d", &val)] made of the text. *)
Definition pm_trace_store (EINVAL : Z) (buf : option Z) (n : Z)
           (pm_trace_enabled : Z) : Z * Z :=
  match buf with
  | Some val => (n, if val =? 0 then 0 else 1)
  | None => (- EINVAL, pm_trace_enabled)
  end.

(** [int pm_trace_enabled;] *)
Definition pm_trace_init : Z := 0.

(** The global after a sequence of writes to one attribute. *)
Definition writes {B : Type} (store : B -> Z -> Z -> Z * Z)
           (ws : list (B * Z)) (g : Z) : Z :=
  fold_left (fun g w => snd (store (fst w) (snd w) g)) ws g.

(** *** C strings: a [string] stands for its characters followed by NUL *)

Definition c_head (s : string) : ascii :=
  match s with String c _ => c | EmptyString => Ascii.zero end.

Definition c_tail (s : string) : string :=
  match s with String _ r => r | EmptyString => EmptyString end.

Fixpoint strlen (s : string) : nat :=
  match s with
  | EmptyString => O
  | String c r => if Ascii.eqb c Ascii.zero then O else S (strlen r)
  end.

(** [strncmp(a, b, n) == 0] *)
Fixpoint strncmp_zero (a b : string) (n : nat) : bool :=
  match n with
  | O => true
  | S k =>
      if Ascii.eqb (c_head a) (c_head b)
      then if Ascii.eqb (c_head a) Ascii.zero then true
           else strncmp_zero (c_tail a) (c_tail b) k
      else false
  end.

(** [memchr(buf, c, n)] as the offset of the result from [buf]. *)
Fixpoint memchr (buf : string) (c : ascii) (n : nat) : option nat :=
  match n, buf with
  | S k, String x r =>
      if Ascii.eqb x c then Some O else option_map S (memchr r c k)
  | _, _ => None
  end.

Definition newline : ascii := "010"%char.

(** [*(s-1) = c] on the text written so far. *)
Fixpoint set_last (s : string) (c : ascii) : string :=
  match s with
  | EmptyString => EmptyString
  | String _ EmptyString => String c EmptyString
  | String x r => String x (set_last r c)
  end.

(** A text without NUL and without newline. *)
Fixpoint plain (s : string) : bool :=
  match s with
  | EmptyString => true
  | String c r =>
      negb (Ascii.eqb c Ascii.zero) && negb (Ascii.eqb c newline) && plain r
  end.

(** The text of a write up to its first newline. *)
Definition first_line (buf : string) : string :=
  substring 0 (match memchr buf newline (String.length buf) with
               | Some p => p
               | None => String.length buf
               end) buf.

Section PmTest.

(** The test levels of power.h, which is not part of this file. *)
Variable TEST_NONE : nat.
Variable TEST_CORE : nat.
Variable TEST_CPUS : nat.
Variable TEST_PLATFORM : nat.
Variable TEST_DEVICES : nat.
Variable TEST_FREEZER : nat.
Variable TEST_FIRST : nat.
Variable TEST_MAX : nat.
Variable EINVAL : Z.

(** The designated initializers of [pm_tests], in the order written. *)
Definition pm_tests_init : list (nat * string) :=
  [(TEST_NONE, "none"%string); (TEST_CORE, "core"%string);
   (TEST_CPUS, "processors"%string); (TEST_PLATFORM, "platform"%string);
   (TEST_DEVICES, "devices"%string); (TEST_FREEZER, "freezer"%string)].

Fixpoint last_init (inits : list (nat * string)) (level : nat)
         (found : option string) : option string :=
  match inits with
  | [] => found
  | (i, nm) :: rest =>
      last_init rest level (if (i =? level)%nat then Some nm else found)
  end.

(** [pm_tests[level]]: the last initializer for the index, NULL where
    there is none. *)
Definition pm_tests (level : nat) : option string :=
  last_init pm_tests_init level None.

(** The levels [TEST_FIRST .. TEST_MAX] the loops visit. *)
Definition test_levels : list nat := seq TEST_FIRST (S TEST_MAX - TEST_FIRST).

(** The loop of [pm_test_store]: the first level whose name has length
    [len] and agrees with the first [len] characters of [buf]. *)
Fixpoint pm_test_match (levels : list nat) (buf : string) (len : nat)
  : option nat :=
  match levels with
  | [] => None
  | level :: rest =>
      match pm_tests level with
      | Some nm =>
          if (len =? strlen nm)%nat && strncmp_zero buf nm len
          then Some level
          else pm_test_match rest buf len
      | None => pm_test_match rest buf len
      end
  end.

(** What one round of that loop tests at [level]. *)
Definition pm_test_fits (buf : string) (len level : nat) : bool :=
  match pm_tests level with
  | Some nm => (len =? strlen nm)%nat && strncmp_zero buf nm len
  | None => false
  end.

(** [len = p ? p - buf : n] after [p = memchr(buf, '\n', n)]. *)
Definition line_length (buf : string) : nat :=
  match memchr buf newline (String.length buf) with
  | Some p => p
  | None => String.length buf
  end.

(** [pm_test_store] on the global [pm_test_level]; the write holds the
    characters of [buf], so [n] is its length.  The result is the
    returned value and the global afterwards. *)
Definition pm_test_store (buf : string) (pm_test_level : nat) : Z * nat :=
  let n := Z.of_nat (String.length buf) in
  match pm_test_match test_levels buf (line_length buf) with
  | Some level => (n, level)
  | None => (if - EINVAL =? 0 then n else - EINVAL, pm_test_level)
  end.

(** The loop of [pm_test_show]: the text written before the last
    character is fixed up. *)
Fixpoint pm_test_names (levels : list nat) (pm_test_level : nat) : string :=
  match levels with
  | [] => EmptyString
  | level :: rest =>
      match pm_tests level with
      | Some nm =>
          if (level =? pm_test_level)%nat
          then ("[" ++ nm ++ "] " ++ pm_test_names rest pm_test_level)%string
          else (nm ++ " " ++ pm_test_names rest pm_test_level)%string
      | None => pm_test_names rest pm_test_level
      end
  end.

(** [pm_test_show]: the text in the buffer and the returned length. *)
Definition pm_test_show (pm_test_level : nat) : string * Z :=
  let out := set_last (pm_test_names test_levels pm_test_level) newline in
  (out, Z.of_nat (String.length out)).

End PmTest.

(** The test levels as mainline power.h numbers them, for concrete
    runs. *)
Module PowerH.

Definition TEST_NONE : nat := 0.
Definition TEST_CORE : nat := 1.
Definition TEST_CPUS : nat := 2.
Definition TEST_PLATFORM : nat := 3.
Definition TEST_DEVICES : nat := 4.
Definition TEST_FREEZER : nat := 5.
Definition TEST_FIRST : nat := TEST_NONE.
Definition TEST_MAX : nat := 5.

Definition inits : list (nat * string) :=
  pm_tests_init TEST_NONE TEST_CORE TEST_CPUS TEST_PLATFORM TEST_DEVICES
                TEST_FREEZER.
Definition test_store : string -> nat -> Z * nat :=
  pm_test_store TEST_NONE TEST_CORE TEST_CPUS TEST_PLATFORM TEST_DEVICES
                TEST_FREEZER TEST_FIRST TEST_MAX 22.
Definition test_show : nat -> string * Z :=
  pm_test_show TEST_NONE TEST_CORE TEST_CPUS TEST_PLATFORM TEST_DEVICES
               TEST_FREEZER TEST_FIRST TEST_MAX.

End PowerH.

(** ** Further observations used by the properties below *)

Definition is_policy_update (e : event) : bool :=
  match e with PolicyUpdate _ => true | _ => false end.

(** The [cpufreq_update_policy] calls of a trace. *)
Definition policy_events (t : list event) : list event :=
  filter is_policy_update t.

(** What holds of the globals and the QoS channel after any sequence of
    writes: the flag is 0 or 1 and is up only while both limits are
    locked; a locked minimum above a locked maximum has the flag up and
    the maximum as the latest QoS value; with the flag down a locked
    minimum is the latest QoS value; with the minimum unlocked the
    channel was never written or holds the default. *)
Definition arbitration_inv (QOS_DEFAULT : Z) (s : dvfs) : Prop :=
  (min_replacement s = 0 \/ min_replacement s = 1)
  /\ (min_replacement s <> 0 ->
      cpufreq_min_limit_val s <> -1 /\ cpufreq_max_limit_val s <> -1)
  /\ (cpufreq_min_limit_val s <> -1 ->
      cpufreq_max_limit_val s <> -1 ->
      cpufreq_min_limit_val s > cpufreq_max_limit_val s ->
      min_replacement s = 1
      /\ last_qos (trace s) = Some (cpufreq_max_limit_val s))
  /\ (cpufreq_min_limit_val s <> -1 ->
      min_replacement s = 0 ->
      last_qos (trace s) = Some (cpufreq_min_limit_val s))
  /\ (cpufreq_min_limit_val s = -1 ->
      last_qos (trace s) = None \/ last_qos (trace s) = Some QOS_DEFAULT).

(** ** Properties *)

Section Properties.

Variable CPUFREQ_TABLE_END : Z.
Variable CPUFREQ_ADJUST : Z.
Variable NOTIFY_DONE : Z.
Variable EINVAL : Z.
Variable PRCMU_QOS_DEFAULT_VALUE : Z.

Abbreviation max_store := (cpufreq_max_limit_store CPUFREQ_TABLE_END EINVAL).
Abbreviation min_store :=
  (cpufreq_min_limit_store CPUFREQ_TABLE_END EINVAL PRCMU_QOS_DEFAULT_VALUE).
Abbreviation notifier :=
  (dvfs_cpufreq_notifier CPUFREQ_TABLE_END CPUFREQ_ADJUST NOTIFY_DONE EINVAL).
Abbreviation runs := (run CPUFREQ_TABLE_END EINVAL PRCMU_QOS_DEFAULT_VALUE).
Abbreviation steps := (step CPUFREQ_TABLE_END EINVAL PRCMU_QOS_DEFAULT_VALUE).
Abbreviation resolves := (resolve CPUFREQ_TABLE_END).
Abbreviation get_level := (get_cpufreq_level CPUFREQ_TABLE_END EINVAL).

(** *** Traces *)

Lemma for_each_policy_update (cpus : list nat) (s : dvfs) :
  for_each_online_cpu cpus cpufreq_update_policy s
  = (tt, with_trace s (rev (map PolicyUpdate cpus) ++ trace s)).
Proof.
  revert s; induction cpus as [|c cpus IH]; intros s.
  - destruct s; reflexivity.
  - cbn [for_each_online_cpu]. unfold bind, cpufreq_update_policy, emit.
    rewrite IH. unfold with_trace. cbn. rewrite <- app_assoc. reflexivity.
Qed.

Lemma last_qos_policy_updates (cpus : list nat) (t : list event) :
  last_qos (rev (map PolicyUpdate cpus) ++ t) = last_qos t.
Proof.
  induction cpus as [|c cpus IH] using rev_ind; [reflexivity|].
  rewrite map_app, rev_app_distr. exact IH.
Qed.

(** *** The lookup *)

Lemma get_level_resolved (e : env) (val : Z) (rt : dvfs_lock_request_type)
      (s : dvfs) (l : Z) :
  resolves e val rt = Some l ->
  get_level e (to_uint val) rt s
  = (VALID_LEVEL, Some l,
     with_trace s (if debug_mask e then Printk (level_fmt rt) :: trace s
                   else trace s)).
Proof.
  unfold resolve, get_cpufreq_level. destruct (table e) as [tbl|]; [|discriminate].
  intros ->. destruct s, (debug_mask e); reflexivity.
Qed.

Lemma get_level_unresolved (e : env) (val : Z) (rt : dvfs_lock_request_type)
      (s : dvfs) :
  resolves e val rt = None ->
  exists t, get_level e (to_uint val) rt s = (- EINVAL, None, with_trace s t)
            /\ outgoing t = outgoing (trace s).
Proof.
  unfold resolve, get_cpufreq_level. destruct (table e) as [tbl|].
  - intros ->. exists (trace s). destruct s; split; reflexivity.
  - intros _. eexists. destruct s; split; reflexivity.
Qed.

(** *** The store handlers, branch by branch *)

Ltac run_m :=
  unfold bind, ret, when, get_max, get_min, get_replacement, set_max, set_min,
    set_replacement, prcmu_qos_update_requirement, printk, emit, with_trace;
  cbn [fst snd cpufreq_max_limit_val cpufreq_min_limit_val min_replacement trace].

Lemma max_store_unlock (e : env) (n : Z) (s : dvfs) :
  max_store e (Some (-1)) n s
  = if cpufreq_max_limit_val s =? -1
    then (n, with_trace s (Printk "%s: Unlock request is ignored" :: trace s))
    else if negb (min_replacement s =? 0) && negb (cpufreq_min_limit_val s =? -1)
         then (n, mkDvfs (-1) (cpufreq_min_limit_val s) 0
                         (QosUpdate (cpufreq_min_limit_val s)
                            :: policy_updates e (trace s)))
         else (n, mkDvfs (-1) (cpufreq_min_limit_val s) (min_replacement s)
                         (policy_updates e (trace s))).
Proof.
  unfold cpufreq_max_limit_store, policy_updates.
  change (-1 =? -1) with true. cbv iota.
  unfold bind at 1 2. unfold get_max at 1.
  destruct (cpufreq_max_limit_val s =? -1); cbn [negb].
  - run_m. reflexivity.
  - unfold bind at 1 2. unfold set_max at 1. rewrite for_each_policy_update.
    run_m. destruct (negb (min_replacement s =? 0) && negb (cpufreq_min_limit_val s =? -1));
      reflexivity.
Qed.

Lemma max_store_lock (e : env) (val l n : Z) (s : dvfs) :
  val <> -1 ->
  resolves e val DVFS_MAX_LOCK_REQ = Some l ->
  max_store e (Some val) n s
  = let t := dbg e (level_fmt DVFS_MAX_LOCK_REQ) (trace s) in
    if negb (cpufreq_min_limit_val s =? -1) && (cpufreq_min_limit_val s >? val)
    then (n, mkDvfs val (cpufreq_min_limit_val s) 1
                    (policy_updates e
                       (QosUpdate val
                          :: dbg e "%s: Min lock forced to %d because of Max lock" t)))
    else (n, mkDvfs val (cpufreq_min_limit_val s) (min_replacement s)
                    (policy_updates e t)).
Proof.
  intros Hval Hres. unfold cpufreq_max_limit_store.
  apply Z.eqb_neq in Hval. rewrite Hval.
  unfold bind at 1 2. rewrite (get_level_resolved _ _ _ _ _ Hres).
  cbn [fst]. change (VALID_LEVEL =? VALID_LEVEL) with true. cbv iota.
  unfold dbg, policy_updates. run_m.
  destruct (negb (cpufreq_min_limit_val s =? -1) && (cpufreq_min_limit_val s >? val));
    destruct (debug_mask e); run_m; rewrite for_each_policy_update; reflexivity.
Qed.

Lemma min_store_unlock (e : env) (n : Z) (s : dvfs) :
  min_store e (Some (-1)) n s
  = if cpufreq_min_limit_val s =? -1
    then (n, with_trace s (Printk "%s: Unlock request is ignored" :: trace s))
    else (n, mkDvfs (cpufreq_max_limit_val s) (-1) 0
                    (QosUpdate PRCMU_QOS_DEFAULT_VALUE :: trace s)).
Proof.
  unfold cpufreq_min_limit_store.
  change (-1 =? -1) with true. cbv iota.
  unfold bind at 1 2. unfold get_min at 1.
  destruct (cpufreq_min_limit_val s =? -1); cbn [negb]; run_m; reflexivity.
Qed.

Lemma min_store_lock (e : env) (val l n : Z) (s : dvfs) :
  val <> -1 ->
  resolves e val DVFS_MIN_LOCK_REQ = Some l ->
  min_store e (Some val) n s
  = let t := dbg e (level_fmt DVFS_MIN_LOCK_REQ) (trace s) in
    if negb (cpufreq_max_limit_val s =? -1) && (val >? cpufreq_max_limit_val s)
    then (n, mkDvfs (cpufreq_max_limit_val s) val 1
                    (QosUpdate (cpufreq_max_limit_val s)
                       :: dbg e "%s: Min lock forced to %d because of Max lock" t))
    else (n, mkDvfs (cpufreq_max_limit_val s) val (min_replacement s)
                    (QosUpdate val :: t)).
Proof.
  intros Hval Hres. unfold cpufreq_min_limit_store.
  apply Z.eqb_neq in Hval. rewrite Hval.
  unfold bind at 1 2. rewrite (get_level_resolved _ _ _ _ _ Hres).
  cbn [fst]. change (VALID_LEVEL =? VALID_LEVEL) with true. cbv iota.
  unfold dbg. run_m.
  destruct (negb (cpufreq_max_limit_val s =? -1) && (val >? cpufreq_max_limit_val s));
    destruct (debug_mask e); reflexivity.
Qed.

Lemma get_level_cases (e : env) (val : Z) (rt : dvfs_lock_request_type)
      (s : dvfs) :
  exists r lv t,
    get_level e (to_uint val) rt s = (r, lv, with_trace s t)
    /\ outgoing t = outgoing (trace s)
    /\ (resolves e val rt = None -> r = - EINVAL).
Proof.
  destruct (resolves e val rt) as [l|] eqn:Hres.
  - rewrite (get_level_resolved _ _ _ _ _ Hres).
    do 3 eexists. split; [reflexivity|]. split; [|discriminate].
    destruct (debug_mask e); reflexivity.
  - destruct (get_level_unresolved _ _ _ s Hres) as (t & -> & Ht).
    do 3 eexists. split; [reflexivity|]. split; [exact Ht|reflexivity].
Qed.

Lemma max_store_lock_any (e : env) (val n : Z) (s : dvfs) :
  val <> -1 ->
  exists r t,
    outgoing t = outgoing (trace s)
    /\ (resolves e val DVFS_MAX_LOCK_REQ = None -> r = - EINVAL)
    /\ max_store e (Some val) n s
       = if r =? VALID_LEVEL
         then if negb (cpufreq_min_limit_val s =? -1)
                 && (cpufreq_min_limit_val s >? val)
              then (n, mkDvfs val (cpufreq_min_limit_val s) 1
                        (policy_updates e
                           (QosUpdate val
                              :: dbg e "%s: Min lock forced to %d because of Max lock" t)))
              else (n, mkDvfs val (cpufreq_min_limit_val s) (min_replacement s)
                        (policy_updates e t))
         else (n, with_trace s (Printk "%s: Lock request is invalid" :: t)).
Proof.
  intros Hval.
  destruct (get_level_cases e val DVFS_MAX_LOCK_REQ s) as (r & lv & t & Hg & Ht & Hr).
  exists r, t. split; [exact Ht|]. split; [exact Hr|].
  unfold cpufreq_max_limit_store. apply Z.eqb_neq in Hval. rewrite Hval.
  unfold bind at 1 2. rewrite Hg. cbn [fst].
  destruct (r =? VALID_LEVEL); unfold dbg, policy_updates; run_m; [|reflexivity].
  destruct (negb (cpufreq_min_limit_val s =? -1) && (cpufreq_min_limit_val s >? val));
    destruct (debug_mask e); run_m; rewrite for_each_policy_update; reflexivity.
Qed.

Lemma min_store_lock_any (e : env) (val n : Z) (s : dvfs) :
  val <> -1 ->
  exists r t,
    outgoing t = outgoing (trace s)
    /\ (resolves e val DVFS_MIN_LOCK_REQ = None -> r = - EINVAL)
    /\ min_store e (Some val) n s
       = if r =? VALID_LEVEL
         then if negb (cpufreq_max_limit_val s =? -1)
                 && (val >? cpufreq_max_limit_val s)
              then (n, mkDvfs (cpufreq_max_limit_val s) val 1
                        (QosUpdate (cpufreq_max_limit_val s)
                           :: dbg e "%s: Min lock forced to %d because of Max lock" t))
              else (n, mkDvfs (cpufreq_max_limit_val s) val (min_replacement s)
                        (QosUpdate val :: t))
         else (n, with_trace s (Printk "%s: Lock request is invalid" :: t)).
Proof.
  intros Hval.
  destruct (get_level_cases e val DVFS_MIN_LOCK_REQ s) as (r & lv & t & Hg & Ht & Hr).
  exists r, t. split; [exact Ht|]. split; [exact Hr|].
  unfold cpufreq_min_limit_store. apply Z.eqb_neq in Hval. rewrite Hval.
  unfold bind at 1 2. rewrite Hg. cbn [fst].
  destruct (r =? VALID_LEVEL); unfold dbg; run_m; [|reflexivity].
  destruct (negb (cpufreq_max_limit_val s =? -1) && (val >? cpufreq_max_limit_val s));
    destruct (debug_mask e); reflexivity.
Qed.

(** *** The flag is up only while both limits are locked *)

Lemma step_replacement_inv (e : env) (r : request) (s : dvfs) :
  replacement_inv s -> replacement_inv (snd (steps e r s)).
Proof.
  unfold replacement_inv. intros Hinv.
  destruct r as [[val|] n|[val|] n]; cbn [step].
  - destruct (Z.eq_dec val (-1)) as [->|Hval].
    + rewrite max_store_unlock.
      destruct (cpufreq_max_limit_val s =? -1) eqn:Hmx; [exact Hinv|].
      destruct (min_replacement s =? 0) eqn:Hr; cbn [negb andb snd min_replacement].
      * apply Z.eqb_eq in Hr. intros H. contradiction.
      * destruct (cpufreq_min_limit_val s =? -1) eqn:Hmn;
          cbn [negb snd min_replacement]; intros H.
        -- apply Z.eqb_eq in Hmn. destruct (Hinv H) as [Hm _]. contradiction.
        -- contradiction.
    + destruct (max_store_lock_any e val n s Hval) as (rc & t & _ & _ & ->).
      destruct (rc =? VALID_LEVEL); [|exact Hinv].
      destruct (cpufreq_min_limit_val s =? -1) eqn:Hmn; cbn [negb andb].
      * cbn. intros H. split; [apply Hinv; exact H|exact Hval].
      * apply Z.eqb_neq in Hmn.
        destruct (cpufreq_min_limit_val s >? val); cbn; intros H;
          (split; [exact Hmn|exact Hval]).
  - cbn. exact Hinv.
  - destruct (Z.eq_dec val (-1)) as [->|Hval].
    + rewrite min_store_unlock.
      destruct (cpufreq_min_limit_val s =? -1); [exact Hinv|].
      cbn. intros H. contradiction.
    + destruct (min_store_lock_any e val n s Hval) as (rc & t & _ & _ & ->).
      destruct (rc =? VALID_LEVEL); [|exact Hinv].
      destruct (cpufreq_max_limit_val s =? -1) eqn:Hmx; cbn [negb andb].
      * cbn. intros H. split; [exact Hval|apply Hinv; exact H].
      * apply Z.eqb_neq in Hmx.
        destruct (val >? cpufreq_max_limit_val s); cbn; intros H;
          (split; [exact Hval|exact Hmx]).
  - cbn. exact Hinv.
Qed.

Lemma run_replacement_inv (rs : list (env * request)) (s : dvfs) :
  replacement_inv s -> replacement_inv (runs rs s).
Proof.
  revert s; induction rs as [|[e r] rs IH]; intros s Hinv; cbn [run].
  - exact Hinv.
  - apply IH, step_replacement_inv, Hinv.
Qed.

Lemma reachable_replacement_inv (s : dvfs) :
  reachable CPUFREQ_TABLE_END EINVAL PRCMU_QOS_DEFAULT_VALUE s ->
  replacement_inv s.
Proof.
  intros [rs ->]. apply run_replacement_inv.
  unfold replacement_inv, dvfs_init. cbn. intros H. contradiction.
Qed.

(** *** What the latest QoS push is *)

Lemma last_qos_dbg (e : env) (fmt : string) (t : list event) :
  last_qos (dbg e fmt t) = last_qos t.
Proof. unfold dbg. destruct (debug_mask e); reflexivity. Qed.

Lemma last_qos_updates (e : env) (t : list event) :
  last_qos (policy_updates e t) = last_qos t.
Proof. apply last_qos_policy_updates. Qed.

Lemma outgoing_printk (fmt : string) (t : list event) :
  outgoing (Printk fmt :: t) = outgoing t.
Proof. reflexivity. Qed.

(** *** The priority rule works on the requested values *)

(** C1, as the code has it: when both requests pass the table lookup and
    the requested minimum is above the requested maximum (compared as the
    ints that were written, not as table levels), the two stores in
    either order end with the maximum and minimum recorded,
    [min_replacement] set to 1 and the requested maximum as the latest
    QoS value. *)
Theorem priority_on_requested_values
        (e : env) (s : dvfs) (min_req max_req n m lmin lmax : Z) :
  min_req <> -1 -> max_req <> -1 ->
  resolves e min_req DVFS_MIN_LOCK_REQ = Some lmin ->
  resolves e max_req DVFS_MAX_LOCK_REQ = Some lmax ->
  min_req > max_req ->
  let min_first :=
    runs [(e, MinLimitStore (Some min_req) n); (e, MaxLimitStore (Some max_req) m)] s in
  let max_first :=
    runs [(e, MaxLimitStore (Some max_req) m); (e, MinLimitStore (Some min_req) n)] s in
  (globals min_first = (max_req, min_req, 1)
   /\ last_qos (trace min_first) = Some max_req)
  /\ (globals max_first = (max_req, min_req, 1)
      /\ last_qos (trace max_first) = Some max_req).
Proof.
  intros Ha Hb Hra Hrb Hgt. cbn zeta. cbn [run step].
  assert (Hgtb : (min_req >? max_req) = true) by (apply Z.gtb_lt; lia).
  assert (Hmin : (min_req =? -1) = false) by (apply Z.eqb_neq; exact Ha).
  assert (Hmax : (max_req =? -1) = false) by (apply Z.eqb_neq; exact Hb).
  split.
  - rewrite (min_store_lock e min_req lmin n s Ha Hra). cbn zeta.
    destruct (negb (cpufreq_max_limit_val s =? -1) && (min_req >? cpufreq_max_limit_val s));
      cbn [snd]; rewrite (max_store_lock e max_req lmax m _ Hb Hrb); cbn zeta;
      cbn [cpufreq_min_limit_val]; rewrite Hmin, Hgtb; cbn [negb andb snd];
      (split; [reflexivity|]); cbn [trace];
      rewrite last_qos_updates; reflexivity.
  - rewrite (max_store_lock e max_req lmax m s Hb Hrb). cbn zeta.
    destruct (negb (cpufreq_min_limit_val s =? -1) && (cpufreq_min_limit_val s >? max_req));
      cbn [snd]; rewrite (min_store_lock e min_req lmin n _ Ha Hra); cbn zeta;
      cbn [cpufreq_max_limit_val]; rewrite Hmax, Hgtb; cbn [negb andb snd];
      (split; reflexivity).
Qed.

(** *** The stored maximum is the requested value *)

(** C2, as the code has it: a non-negative request that passes the
    AtOrBelow lookup is stored as written (the lookup only validates it),
    and an unlock request always leaves the maximum at -1. *)
Theorem max_store_records_request (e : env) (s : dvfs) (n : Z) :
  (forall v l : Z,
      0 <= v ->
      resolves e v DVFS_MAX_LOCK_REQ = Some l ->
      cpufreq_max_limit_val (snd (max_store e (Some v) n s)) = v)
  /\ cpufreq_max_limit_val (snd (max_store e (Some (-1)) n s)) = -1.
Proof.
  split.
  - intros v l Hv Hres.
    rewrite (max_store_lock e v l n s ltac:(lia) Hres). cbn zeta.
    destruct (negb (cpufreq_min_limit_val s =? -1) && (cpufreq_min_limit_val s >? v));
      reflexivity.
  - rewrite max_store_unlock.
    destruct (cpufreq_max_limit_val s =? -1) eqn:Hmx.
    + apply Z.eqb_eq in Hmx. exact Hmx.
    + destruct (negb (min_replacement s =? 0) && negb (cpufreq_min_limit_val s =? -1));
        reflexivity.
Qed.

(** *** Unlocking the maximum restores the requested minimum *)

(** C3, as the code has it: in a state reached by writes to the two
    files with [min_replacement] set, the minimum is locked, and an
    unlock of the maximum clears the flag and pushes the stored minimum,
    which is the value that was requested. *)
Theorem max_unlock_restores_requested_min (e : env) (s : dvfs) (n : Z) :
  reachable CPUFREQ_TABLE_END EINVAL PRCMU_QOS_DEFAULT_VALUE s ->
  min_replacement s <> 0 ->
  let s' := snd (max_store e (Some (-1)) n s) in
  cpufreq_min_limit_val s <> -1
  /\ min_replacement s' = 0
  /\ cpufreq_max_limit_val s' = -1
  /\ last_qos (trace s') = Some (cpufreq_min_limit_val s).
Proof.
  intros Hreach Hflag. cbn zeta.
  destruct (reachable_replacement_inv s Hreach Hflag) as [Hmn Hmx].
  split; [exact Hmn|]. rewrite max_store_unlock.
  apply Z.eqb_neq in Hmn, Hmx, Hflag. rewrite Hmx, Hflag, Hmn.
  cbn. repeat split; reflexivity.
Qed.

(** *** A minimum that does not conflict *)

(** C4, as the code has it: a non-negative request that passes the
    AtOrAbove lookup and is not above the stored maximum (or the maximum
    is unlocked) is stored and pushed to the QoS channel as written; the
    flag is not raised. *)
Theorem min_lock_compatible_pushes_request (e : env) (s : dvfs) (v l n : Z) :
  0 <= v ->
  resolves e v DVFS_MIN_LOCK_REQ = Some l ->
  cpufreq_max_limit_val s = -1 \/ v <= cpufreq_max_limit_val s ->
  let s' := snd (min_store e (Some v) n s) in
  cpufreq_min_limit_val s' = v
  /\ cpufreq_max_limit_val s' = cpufreq_max_limit_val s
  /\ last_qos (trace s') = Some v
  /\ (min_replacement s = 0 -> min_replacement s' = 0).
Proof.
  intros Hv Hres Hcompat. cbn zeta.
  rewrite (min_store_lock e v l n s ltac:(lia) Hres). cbn zeta.
  assert (Htest : negb (cpufreq_max_limit_val s =? -1)
                  && (v >? cpufreq_max_limit_val s) = false).
  { destruct Hcompat as [Hu|Hle].
    - rewrite Hu. reflexivity.
    - apply andb_false_iff. right. rewrite Z.gtb_ltb. apply Z.ltb_ge. exact Hle. }
  rewrite Htest. cbn. repeat split; try reflexivity. intros H; exact H.
Qed.

(** *** A request that does not pass the lookup *)

(** C5, as the code has it: a written integer other than -1 that the
    lookup rejects only produces log lines; both handlers return the byte
    count [n] as for an accepted write, and change neither the globals
    nor the QoS channel nor any policy. *)
Theorem invalid_lock_request_is_accepted (e : env) (s : dvfs) (v n : Z) :
  EINVAL <> -1 ->
  v <> -1 ->
  (resolves e v DVFS_MAX_LOCK_REQ = None ->
   fst (max_store e (Some v) n s) = n
   /\ globals (snd (max_store e (Some v) n s)) = globals s
   /\ outgoing (trace (snd (max_store e (Some v) n s))) = outgoing (trace s))
  /\ (resolves e v DVFS_MIN_LOCK_REQ = None ->
      fst (min_store e (Some v) n s) = n
      /\ globals (snd (min_store e (Some v) n s)) = globals s
      /\ outgoing (trace (snd (min_store e (Some v) n s))) = outgoing (trace s)).
Proof.
  intros Herr Hv.
  assert (Hret : (- EINVAL =? VALID_LEVEL) = false)
    by (apply Z.eqb_neq; unfold VALID_LEVEL; lia).
  split; intros Hres.
  - destruct (max_store_lock_any e v n s Hv) as (r & t & Ht & Hr & ->).
    rewrite (Hr Hres), Hret. cbn [fst snd]. unfold with_trace, globals.
    cbn [cpufreq_max_limit_val cpufreq_min_limit_val min_replacement trace].
    rewrite outgoing_printk. auto.
  - destruct (min_store_lock_any e v n s Hv) as (r & t & Ht & Hr & ->).
    rewrite (Hr Hres), Hret. cbn [fst snd]. unfold with_trace, globals.
    cbn [cpufreq_max_limit_val cpufreq_min_limit_val min_replacement trace].
    rewrite outgoing_printk. auto.
Qed.

(** *** Unlocking twice *)

(** C8: after one unlock of the maximum, a second one returns its byte
    count like any accepted write, logs that the request is ignored and
    changes nothing else. *)
Theorem max_unlock_twice (e1 e2 : env) (s : dvfs) (n m : Z) :
  let s1 := snd (max_store e1 (Some (-1)) n s) in
  max_store e2 (Some (-1)) m s1
  = (m, with_trace s1 (Printk "%s: Unlock request is ignored" :: trace s1)).
Proof.
  cbn zeta. rewrite (max_store_unlock e2). 
  assert (H : cpufreq_max_limit_val (snd (max_store e1 (Some (-1)) n s)) = -1).
  { rewrite max_store_unlock.
    destruct (cpufreq_max_limit_val s =? -1) eqn:Hmx.
    - apply Z.eqb_eq in Hmx. exact Hmx.
    - destruct (negb (min_replacement s =? 0) && negb (cpufreq_min_limit_val s =? -1));
        reflexivity. }
  rewrite H. reflexivity.
Qed.

(** *** The flag implies a locked minimum *)

(** C9: after any sequence of writes to the two files, under any tables,
    a set [min_replacement] comes with a locked minimum. *)
Theorem replacement_implies_min_locked (rs : list (env * request)) :
  min_replacement (runs rs dvfs_init) <> 0 ->
  cpufreq_min_limit_val (runs rs dvfs_init) <> -1.
Proof.
  intros Hflag.
  apply (reachable_replacement_inv (runs rs dvfs_init)); [|exact Hflag].
  exists rs. reflexivity.
Qed.

(** *** The policy notifier *)

Lemma notifier_adjust (e : env) (p : cpufreq_policy) (s : dvfs) (tbl : list Z) :
  table e = Some tbl ->
  notifier e CPUFREQ_ADJUST p s
  = (NOTIFY_DONE,
     if negb (cpufreq_max_limit_val s =? -1)
        && (max p >? to_uint (cpufreq_max_limit_val s))
     then set_policy_max p (to_uint (cpufreq_max_limit_val s))
     else if cpufreq_max_limit_val s =? -1
          then set_policy_max p
                 (frequency CPUFREQ_TABLE_END tbl
                    (Z.to_nat (to_uint (Z.of_nat (table_length CPUFREQ_TABLE_END tbl) - 1))))
          else p,
     s).
Proof.
  intros Htbl. unfold dvfs_cpufreq_notifier.
  rewrite Z.eqb_refl, Htbl. cbn [negb]. run_m.
  destruct (negb (cpufreq_max_limit_val s =? -1)
            && (max p >? to_uint (cpufreq_max_limit_val s))); [reflexivity|].
  destruct (cpufreq_max_limit_val s =? -1); reflexivity.
Qed.

(** With a maximum locked, the ceiling becomes the smaller of the
    incoming [policy->max] and the stored value as unsigned int. *)
Lemma notifier_locked_clamps (e : env) (p : cpufreq_policy) (s : dvfs)
      (tbl : list Z) :
  table e = Some tbl ->
  cpufreq_max_limit_val s <> -1 ->
  max (snd (fst (notifier e CPUFREQ_ADJUST p s)))
  = Z.min (max p) (to_uint (cpufreq_max_limit_val s)).
Proof.
  intros Htbl Hlim. rewrite (notifier_adjust e p s tbl Htbl).
  apply Z.eqb_neq in Hlim. rewrite Hlim. cbn [negb andb fst snd].
  destruct (max p >? to_uint (cpufreq_max_limit_val s)) eqn:Hgt.
  - apply Z.gtb_lt in Hgt. cbn [set_policy_max max]. lia.
  - rewrite Z.gtb_ltb in Hgt. apply Z.ltb_ge in Hgt. lia.
Qed.

(** With the maximum unlocked and a table that is not empty, the ceiling
    becomes the entry just before the terminator, whatever it holds. *)
Lemma notifier_unlocked_takes_last (e : env) (p : cpufreq_policy) (s : dvfs)
      (tbl : list Z) :
  table e = Some tbl ->
  cpufreq_max_limit_val s = -1 ->
  (0 < table_length CPUFREQ_TABLE_END tbl)%nat ->
  Z.of_nat (table_length CPUFREQ_TABLE_END tbl) <= 2 ^ 32 ->
  max (snd (fst (notifier e CPUFREQ_ADJUST p s)))
  = frequency CPUFREQ_TABLE_END tbl (table_length CPUFREQ_TABLE_END tbl - 1).
Proof.
  intros Htbl Hlim Hpos Hsmall. rewrite (notifier_adjust e p s tbl Htbl).
  rewrite Hlim. change (-1 =? -1) with true.
  cbn [negb andb fst snd set_policy_max max].
  f_equal. unfold to_uint. rewrite Z.mod_small by lia. lia.
Qed.

(** C10: the notifier returns a policy that differs from the incoming
    one in [max] at most and leaves the globals alone; for an event other
    than CPUFREQ_ADJUST it returns NOTIFY_DONE with the policy and the
    state as they were. *)
Theorem notifier_writes_policy_max_only
        (e : env) (ev : Z) (p : cpufreq_policy) (s : dvfs) :
  let out := notifier e ev p s in
  let p' := snd (fst out) in
  (cpu p' = cpu p
   /\ cpuinfo_min_freq p' = cpuinfo_min_freq p
   /\ cpuinfo_max_freq p' = cpuinfo_max_freq p
   /\ min p' = min p)
  /\ globals (snd out) = globals s
  /\ (ev <> CPUFREQ_ADJUST -> out = (NOTIFY_DONE, p, s)).
Proof.
  cbn zeta. destruct (Z.eq_dec ev CPUFREQ_ADJUST) as [->|Hev].
  - destruct (table e) as [tbl|] eqn:Htbl.
    + rewrite (notifier_adjust e p s tbl Htbl). cbn [fst snd].
      split; [|split; [reflexivity|intros H; contradiction]].
      destruct (negb (cpufreq_max_limit_val s =? -1)
                && (max p >? to_uint (cpufreq_max_limit_val s)));
        [repeat split|].
      destruct (cpufreq_max_limit_val s =? -1); repeat split.
    + unfold dvfs_cpufreq_notifier. rewrite Z.eqb_refl, Htbl. cbn [negb]. run_m.
      repeat split. intros H; contradiction.
  - unfold dvfs_cpufreq_notifier. apply Z.eqb_neq in Hev. rewrite Hev.
    cbn [negb]. run_m. repeat split.
Qed.

(** *** Requests above every entry of a table *)

(** When every entry before the terminator is below the request, the
    upward scan finds nothing. *)
Lemma min_lock_scan_above (tbl : list Z) (freq : Z) :
  Forall (fun f => f < freq) tbl ->
  min_lock_scan CPUFREQ_TABLE_END tbl freq = None.
Proof.
  induction 1 as [|f rest Hf _ IH]; cbn [min_lock_scan]; [reflexivity|].
  destruct (f =? CPUFREQ_TABLE_END); [reflexivity|].
  replace (f >=? freq) with false; [exact IH|].
  symmetry. rewrite Z.geb_leb. apply Z.leb_gt. exact Hf.
Qed.

(** A single entry at or above the request, the invalid marker included,
    makes the upward scan succeed. *)
Lemma min_lock_scan_finds (tbl : list Z) (freq : Z) :
  Exists (fun f => freq <= f) (firstn (table_length CPUFREQ_TABLE_END tbl) tbl) ->
  min_lock_scan CPUFREQ_TABLE_END tbl freq <> None.
Proof.
  induction tbl as [|f rest IH]; cbn [table_length min_lock_scan firstn].
  - intros H. inversion H.
  - destruct (f =? CPUFREQ_TABLE_END).
    + intros H. inversion H.
    + cbn [firstn]. intros H. destruct (f >=? freq) eqn:Hge; [discriminate|].
      apply IH. inversion H as [? ? Hhd|? ? Htl]; subst; [|exact Htl].
      rewrite Z.geb_leb in Hge. apply Z.leb_gt in Hge. lia.
Qed.

End Properties.

(** ** Further properties of the lookup, the handlers and the notifier *)

Section Lookup.

Variable CPUFREQ_TABLE_END : Z.
Variable CPUFREQ_ENTRY_INVALID : Z.

Abbreviation freq_at := (frequency CPUFREQ_TABLE_END).
Abbreviation len := (table_length CPUFREQ_TABLE_END).
Abbreviation scan_up := (min_lock_scan CPUFREQ_TABLE_END).
Abbreviation scan_down := (max_lock_scan CPUFREQ_TABLE_END).

Lemma scan_up_some (tbl : list Z) (freq l : Z) :
  scan_up tbl freq = Some l ->
  exists i : nat,
    (i < len tbl)%nat /\ freq_at tbl i = l /\ freq <= l
    /\ forall j : nat, (j < i)%nat -> freq_at tbl j < freq.
Proof.
  revert l; induction tbl as [|f rest IH]; intros l; cbn [min_lock_scan table_length].
  - discriminate.
  - destruct (f =? CPUFREQ_TABLE_END); [discriminate|].
    destruct (f >=? freq) eqn:Hge.
    + intros [= <-]. exists O. rewrite Z.geb_leb in Hge. apply Z.leb_le in Hge.
      repeat split; [lia | exact Hge | intros j Hj; lia].
    + intros Hscan. destruct (IH l Hscan) as (i & Hi & Hat & Hl & Hbelow).
      exists (S i). repeat split; [lia | exact Hat | exact Hl |].
      intros [|j] Hj.
      * cbn. rewrite Z.geb_leb in Hge. apply Z.leb_gt in Hge. exact Hge.
      * apply (Hbelow j). lia.
Qed.

Lemma scan_up_none (tbl : list Z) (freq : Z) :
  scan_up tbl freq = None <->
  forall i : nat, (i < len tbl)%nat -> freq_at tbl i < freq.
Proof.
  induction tbl as [|f rest IH]; cbn [min_lock_scan table_length].
  - split; [intros _ i Hi; lia | reflexivity].
  - destruct (f =? CPUFREQ_TABLE_END); [split; [intros _ i Hi; lia | reflexivity]|].
    destruct (f >=? freq) eqn:Hge.
    + split; [discriminate|]. intros H. specialize (H O ltac:(lia)). cbn in H.
      rewrite Z.geb_leb in Hge. apply Z.leb_le in Hge. lia.
    + rewrite IH. rewrite Z.geb_leb in Hge. apply Z.leb_gt in Hge. split.
      * intros H [|i] Hi; [exact Hge|]. apply (H i). lia.
      * intros H i Hi. apply (H (S i)). lia.
Qed.

Lemma scan_down_some (tbl : list Z) (n : nat) (freq l : Z) :
  scan_down tbl n freq = Some l ->
  exists i : nat,
    (i < n)%nat /\ freq_at tbl i = l /\ l <= freq
    /\ forall j : nat, (i < j < n)%nat -> freq < freq_at tbl j.
Proof.
  induction n as [|n IH]; cbn [max_lock_scan]; [discriminate|].
  destruct (freq_at tbl n <=? freq) eqn:Hle.
  - intros [= <-]. exists n. apply Z.leb_le in Hle.
    repeat split; [lia | exact Hle | intros j Hj; lia].
  - intros Hscan. destruct (IH Hscan) as (i & Hi & Hat & Hl & Habove).
    exists i. repeat split; [lia | exact Hat | exact Hl |].
    intros j Hj. destruct (Nat.eq_dec j n) as [->|Hne].
    + apply Z.leb_gt in Hle. exact Hle.
    + apply Habove. lia.
Qed.

Lemma scan_down_none (tbl : list Z) (n : nat) (freq : Z) :
  scan_down tbl n freq = None <->
  forall i : nat, (i < n)%nat -> freq < freq_at tbl i.
Proof.
  induction n as [|n IH]; cbn [max_lock_scan].
  - split; [intros _ i Hi; lia | reflexivity].
  - destruct (freq_at tbl n <=? freq) eqn:Hle.
    + split; [discriminate|]. intros H. specialize (H n ltac:(lia)).
      apply Z.leb_le in Hle. lia.
    + rewrite IH. apply Z.leb_gt in Hle. split.
      * intros H i Hi. destruct (Nat.eq_dec i n) as [->|Hne]; [exact Hle|].
        apply H. lia.
      * intros H i Hi. apply H. lia.
Qed.

(** X1: what the two scans of [get_cpufreq_level] return.  A minimum
    request gets the first entry before the terminator that is at or
    above it, a maximum request the last entry that is at or below it;
    the lookup fails exactly when no entry before the terminator
    qualifies. *)
Theorem level_scan_first_and_last_match (tbl : list Z) (freq : Z) :
  (forall l, level_scan CPUFREQ_TABLE_END tbl freq DVFS_MIN_LOCK_REQ = Some l ->
             exists i : nat,
               (i < len tbl)%nat /\ freq_at tbl i = l /\ freq <= l
               /\ forall j : nat, (j < i)%nat -> freq_at tbl j < freq)
  /\ (forall l, level_scan CPUFREQ_TABLE_END tbl freq DVFS_MAX_LOCK_REQ = Some l ->
                exists i : nat,
                  (i < len tbl)%nat /\ freq_at tbl i = l /\ l <= freq
                  /\ forall j : nat, (i < j < len tbl)%nat -> freq < freq_at tbl j)
  /\ (level_scan CPUFREQ_TABLE_END tbl freq DVFS_MIN_LOCK_REQ = None <->
      forall i : nat, (i < len tbl)%nat -> freq_at tbl i < freq)
  /\ (level_scan CPUFREQ_TABLE_END tbl freq DVFS_MAX_LOCK_REQ = None <->
      forall i : nat, (i < len tbl)%nat -> freq < freq_at tbl i).
Proof.
  cbn [level_scan]. split; [|split; [|split]].
  - intros l. apply scan_up_some.
  - intros l. apply scan_down_some.
  - apply scan_up_none.
  - apply scan_down_none.
Qed.


(** X3: a minimum request that resolves makes every lower request
    resolve, and a maximum request that resolves makes every higher
    request resolve. *)
Theorem level_scan_success_is_monotone (tbl : list Z) (freq freq' : Z) :
  freq' <= freq ->
  (level_scan CPUFREQ_TABLE_END tbl freq DVFS_MIN_LOCK_REQ <> None ->
   level_scan CPUFREQ_TABLE_END tbl freq' DVFS_MIN_LOCK_REQ <> None)
  /\ (level_scan CPUFREQ_TABLE_END tbl freq' DVFS_MAX_LOCK_REQ <> None ->
      level_scan CPUFREQ_TABLE_END tbl freq DVFS_MAX_LOCK_REQ <> None).
Proof.
  intros Hle. cbn [level_scan]. split; intros Hsome Hnone; apply Hsome.
  - apply scan_up_none. intros i Hi.
    pose proof (proj1 (scan_up_none tbl freq') Hnone i Hi). lia.
  - apply scan_down_none. intros i Hi.
    pose proof (proj1 (scan_down_none tbl (len tbl) freq) Hnone i Hi). lia.
Qed.

End Lookup.

Section TableShow.

Variable CPUFREQ_TABLE_END : Z.
Variable CPUFREQ_ENTRY_INVALID : Z.

Abbreviation freq_at := (frequency CPUFREQ_TABLE_END).
Abbreviation len := (table_length CPUFREQ_TABLE_END).
Abbreviation show_scan :=
  (table_show_scan CPUFREQ_TABLE_END CPUFREQ_ENTRY_INVALID).
Abbreviation table_show :=
  (cpufreq_table_show CPUFREQ_TABLE_END CPUFREQ_ENTRY_INVALID).





(** X6: when [cpufreq_cpu_get(0)] gives no policy the limits stay at
    their initial values, min_freq = ~0 and max_freq = 0, and no
    frequency of any table is listed. *)
Theorem table_show_without_policy_lists_nothing (e : env) (tbl : list Z) :
  table e = Some tbl ->
  table_show e None = Some [].
Proof.
  intros Htbl. unfold cpufreq_table_show. rewrite Htbl. f_equal.
  generalize (len tbl). intros n. induction n as [|n IH]; cbn [table_show_scan].
  - reflexivity.
  - replace ((freq_at tbl n =? CPUFREQ_ENTRY_INVALID) || (freq_at tbl n >? 0)
             || (freq_at tbl n <? to_uint (-1))) with true; [exact IH|].
    symmetry. apply orb_true_iff.
    destruct (freq_at tbl n >? 0) eqn:Hpos.
    + left. apply orb_true_r.
    + right. rewrite Z.gtb_ltb in Hpos. apply Z.ltb_ge in Hpos.
      apply Z.ltb_lt. change (to_uint (-1)) with 4294967295. lia.
Qed.

End TableShow.


Section Handlers.

Variable CPUFREQ_TABLE_END : Z.
Variable EINVAL : Z.
Variable PRCMU_QOS_DEFAULT_VALUE : Z.

Abbreviation max_store := (cpufreq_max_limit_store CPUFREQ_TABLE_END EINVAL).
Abbreviation min_store :=
  (cpufreq_min_limit_store CPUFREQ_TABLE_END EINVAL PRCMU_QOS_DEFAULT_VALUE).
Abbreviation runs := (run CPUFREQ_TABLE_END EINVAL PRCMU_QOS_DEFAULT_VALUE).
Abbreviation steps := (step CPUFREQ_TABLE_END EINVAL PRCMU_QOS_DEFAULT_VALUE).
Abbreviation resolves := (resolve CPUFREQ_TABLE_END).
Abbreviation inv := (arbitration_inv PRCMU_QOS_DEFAULT_VALUE).

Lemma last_qos_outgoing (t : list event) : last_qos (outgoing t) = last_qos t.
Proof.
  induction t as [|[fmt|v|c] t IH]; cbn; try reflexivity; exact IH.
Qed.

Lemma last_qos_same_outgoing (t t' : list event) :
  outgoing t = outgoing t' -> last_qos t = last_qos t'.
Proof.
  intros H. rewrite <- (last_qos_outgoing t), <- (last_qos_outgoing t'), H.
  reflexivity.
Qed.

Ltac to_prop :=
  repeat match goal with
         | H : (_ =? _) = true |- _ => apply Z.eqb_eq in H
         | H : (_ =? _) = false |- _ => apply Z.eqb_neq in H
         | H : (_ >? _) = true |- _ => rewrite Z.gtb_ltb in H; apply Z.ltb_lt in H
         | H : (_ >? _) = false |- _ => rewrite Z.gtb_ltb in H; apply Z.ltb_ge in H
         end.

Ltac inv_done :=
  unfold arbitration_inv in *;
  cbn [fst snd with_trace cpufreq_max_limit_val cpufreq_min_limit_val
       min_replacement trace negb andb];
  rewrite ?last_qos_updates, ?last_qos_dbg; cbn [last_qos];
  rewrite ?last_qos_updates, ?last_qos_dbg;
  to_prop; intuition (try lia; try congruence).

Lemma step_arbitration_inv (e : env) (r : request) (s : dvfs) :
  inv s -> inv (snd (steps e r s)).
Proof.
  intros Hinv.
  destruct r as [[val|] n|[val|] n]; cbn [step].
  - destruct (Z.eq_dec val (-1)) as [->|Hval].
    + rewrite max_store_unlock.
      destruct (cpufreq_max_limit_val s =? -1) eqn:Hmx; [inv_done|].
      destruct (min_replacement s =? 0) eqn:Hr;
        destruct (cpufreq_min_limit_val s =? -1) eqn:Hmn; inv_done.
    + destruct (max_store_lock_any CPUFREQ_TABLE_END EINVAL e val n s Hval)
        as (rc & t & Ht & _ & ->).
      apply last_qos_same_outgoing in Ht.
      destruct (rc =? VALID_LEVEL); [|inv_done].
      destruct (cpufreq_min_limit_val s =? -1) eqn:Hmn;
        destruct (cpufreq_min_limit_val s >? val) eqn:Hgt; inv_done.
  - inv_done.
  - destruct (Z.eq_dec val (-1)) as [->|Hval].
    + rewrite min_store_unlock.
      destruct (cpufreq_min_limit_val s =? -1) eqn:Hmn; inv_done.
    + destruct (min_store_lock_any CPUFREQ_TABLE_END EINVAL
                  PRCMU_QOS_DEFAULT_VALUE e val n s Hval)
        as (rc & t & Ht & _ & ->).
      apply last_qos_same_outgoing in Ht.
      destruct (rc =? VALID_LEVEL); [|inv_done].
      destruct (cpufreq_max_limit_val s =? -1) eqn:Hmx;
        destruct (val >? cpufreq_max_limit_val s) eqn:Hgt; inv_done.
  - inv_done.
Qed.

Lemma run_arbitration_inv (rs : list (env * request)) (s : dvfs) :
  inv s -> inv (runs rs s).
Proof.
  revert s; induction rs as [|[e r] rs IH]; intros s Hinv; cbn [run].
  - exact Hinv.
  - apply IH, step_arbitration_inv, Hinv.
Qed.

Lemma init_arbitration_inv : inv dvfs_init.
Proof. unfold arbitration_inv, dvfs_init. cbn. intuition lia. Qed.

Lemma reachable_arbitration_inv (rs : list (env * request)) :
  inv (runs rs dvfs_init).
Proof. apply run_arbitration_inv, init_arbitration_inv. Qed.

Lemma policy_events_outgoing (t : list event) :
  policy_events (outgoing t) = policy_events t.
Proof.
  induction t as [|[fmt|v|c] t IH]; cbn; try reflexivity; try exact IH.
  f_equal. exact IH.
Qed.

Lemma policy_events_same_outgoing (t t' : list event) :
  outgoing t = outgoing t' -> policy_events t = policy_events t'.
Proof.
  intros H. rewrite <- (policy_events_outgoing t), <- (policy_events_outgoing t'), H.
  reflexivity.
Qed.

Lemma policy_events_updates (e : env) (t : list event) :
  policy_events (policy_updates e t)
  = rev (map PolicyUpdate (online e)) ++ policy_events t.
Proof.
  unfold policy_updates, policy_events. rewrite filter_app. f_equal.
  induction (online e) as [|c cs IH]; [reflexivity|].
  cbn [map rev]. rewrite filter_app, IH. reflexivity.
Qed.

Lemma policy_events_dbg (e : env) (fmt : string) (t : list event) :
  policy_events (dbg e fmt t) = policy_events t.
Proof. unfold dbg. destruct (debug_mask e); reflexivity. Qed.

(** X7: a store handler returns -EINVAL only when the text holds no
    integer, and then nothing happens but a log line; every integer,
    whether it is accepted, rejected by the lookup or an ignored unlock,
    returns the byte count. *)
Theorem store_return_value (e : env) (n : Z) (s : dvfs) :
  (fst (max_store e None n s) = - EINVAL
   /\ globals (snd (max_store e None n s)) = globals s
   /\ outgoing (trace (snd (max_store e None n s))) = outgoing (trace s))
  /\ (fst (min_store e None n s) = - EINVAL
      /\ globals (snd (min_store e None n s)) = globals s
      /\ outgoing (trace (snd (min_store e None n s))) = outgoing (trace s))
  /\ (forall val : Z,
         fst (max_store e (Some val) n s) = n
         /\ fst (min_store e (Some val) n s) = n).
Proof.
  split; [repeat split|]. split; [repeat split|].
  intros val. destruct (Z.eq_dec val (-1)) as [->|Hval].
  - rewrite max_store_unlock, min_store_unlock.
    destruct (cpufreq_max_limit_val s =? -1), (min_replacement s =? 0),
      (cpufreq_min_limit_val s =? -1); split; reflexivity.
  - destruct (max_store_lock_any CPUFREQ_TABLE_END EINVAL e val n s Hval)
      as (rc & t & _ & _ & ->).
    destruct (min_store_lock_any CPUFREQ_TABLE_END EINVAL
                PRCMU_QOS_DEFAULT_VALUE e val n s Hval)
      as (rc' & t' & _ & _ & ->).
    destruct (rc =? VALID_LEVEL), (rc' =? VALID_LEVEL),
      (cpufreq_min_limit_val s =? -1), (cpufreq_min_limit_val s >? val),
      (cpufreq_max_limit_val s =? -1), (val >? cpufreq_max_limit_val s);
      split; reflexivity.
Qed.

(** X8: a write to cpufreq_max_limit never changes the stored minimum,
    and a write to cpufreq_min_limit never changes the stored maximum,
    whatever the text and the state, conflicts included. *)
Theorem store_keeps_other_limit (e : env) (buf : option Z) (n : Z) (s : dvfs) :
  cpufreq_min_limit_val (snd (max_store e buf n s)) = cpufreq_min_limit_val s
  /\ cpufreq_max_limit_val (snd (min_store e buf n s)) = cpufreq_max_limit_val s.
Proof.
  destruct buf as [val|]; [|split; reflexivity].
  destruct (Z.eq_dec val (-1)) as [->|Hval].
  - rewrite max_store_unlock, min_store_unlock.
    destruct (cpufreq_max_limit_val s =? -1), (min_replacement s =? 0),
      (cpufreq_min_limit_val s =? -1); split; reflexivity.
  - destruct (max_store_lock_any CPUFREQ_TABLE_END EINVAL e val n s Hval)
      as (rc & t & _ & _ & ->).
    destruct (min_store_lock_any CPUFREQ_TABLE_END EINVAL
                PRCMU_QOS_DEFAULT_VALUE e val n s Hval)
      as (rc' & t' & _ & _ & ->).
    destruct (rc =? VALID_LEVEL), (rc' =? VALID_LEVEL),
      (cpufreq_min_limit_val s =? -1), (cpufreq_min_limit_val s >? val),
      (cpufreq_max_limit_val s =? -1), (val >? cpufreq_max_limit_val s);
      split; reflexivity.
Qed.

(** X9: a write to cpufreq_min_limit never calls
    [cpufreq_update_policy]. *)
Theorem min_store_never_updates_policy
        (e : env) (buf : option Z) (n : Z) (s : dvfs) :
  policy_events (trace (snd (min_store e buf n s))) = policy_events (trace s).
Proof.
  destruct buf as [val|]; [|reflexivity].
  destruct (Z.eq_dec val (-1)) as [->|Hval].
  - rewrite min_store_unlock.
    destruct (cpufreq_min_limit_val s =? -1); reflexivity.
  - destruct (min_store_lock_any CPUFREQ_TABLE_END EINVAL
                PRCMU_QOS_DEFAULT_VALUE e val n s Hval)
      as (rc & t & Ht & _ & ->).
    apply policy_events_same_outgoing in Ht.
    destruct (rc =? VALID_LEVEL),
      (negb (cpufreq_max_limit_val s =? -1) && (val >? cpufreq_max_limit_val s));
      cbn [snd trace with_trace policy_events filter is_policy_update];
      fold (policy_events t); rewrite ?policy_events_dbg; exact Ht.
Qed.

(** X10: whenever a write to cpufreq_max_limit changes the stored
    maximum, [cpufreq_update_policy] is called once for each online CPU,
    in their order, and for no other. *)
Theorem max_store_change_updates_every_cpu
        (e : env) (buf : option Z) (n : Z) (s : dvfs) :
  cpufreq_max_limit_val (snd (max_store e buf n s)) <> cpufreq_max_limit_val s ->
  policy_events (trace (snd (max_store e buf n s)))
  = rev (map PolicyUpdate (online e)) ++ policy_events (trace s).
Proof.
  destruct buf as [val|]; [|intros H; contradiction H; reflexivity].
  destruct (Z.eq_dec val (-1)) as [->|Hval].
  - rewrite max_store_unlock.
    destruct (cpufreq_max_limit_val s =? -1);
      [intros H; contradiction H; reflexivity|].
    intros _.
    destruct (negb (min_replacement s =? 0) && negb (cpufreq_min_limit_val s =? -1));
      cbn [snd trace policy_events filter is_policy_update];
      fold (policy_events (policy_updates e (trace s)));
      apply policy_events_updates.
  - destruct (max_store_lock_any CPUFREQ_TABLE_END EINVAL e val n s Hval)
      as (rc & t & Ht & _ & ->).
    apply policy_events_same_outgoing in Ht.
    destruct (rc =? VALID_LEVEL); [|intros H; contradiction H; reflexivity].
    intros _.
    destruct (negb (cpufreq_min_limit_val s =? -1) && (cpufreq_min_limit_val s >? val));
      cbn [snd trace]; rewrite policy_events_updates; f_equal;
      cbn [policy_events filter is_policy_update]; fold (policy_events t);
      rewrite ?policy_events_dbg; exact Ht.
Qed.

(** X11: after any sequence of writes [min_replacement] is 0 or 1, and
    when it is 1 the maximum is locked. *)
Theorem replacement_flag_is_boolean (rs : list (env * request)) :
  min_replacement (runs rs dvfs_init) = 0
  \/ (min_replacement (runs rs dvfs_init) = 1
      /\ cpufreq_max_limit_val (runs rs dvfs_init) <> -1).
Proof.
  destruct (reachable_arbitration_inv rs) as ([H0|H1] & Hlocked & _).
  - left. exact H0.
  - right. split; [exact H1|]. apply Hlocked. lia.
Qed.

(** X12: after any sequence of writes, a locked minimum above a locked
    maximum comes with [min_replacement] set and with the maximum as the
    latest value pushed to the QoS channel. *)
Theorem conflict_is_always_replaced (rs : list (env * request)) :
  cpufreq_min_limit_val (runs rs dvfs_init) <> -1 ->
  cpufreq_max_limit_val (runs rs dvfs_init) <> -1 ->
  cpufreq_min_limit_val (runs rs dvfs_init)
  > cpufreq_max_limit_val (runs rs dvfs_init) ->
  min_replacement (runs rs dvfs_init) = 1
  /\ last_qos (trace (runs rs dvfs_init))
     = Some (cpufreq_max_limit_val (runs rs dvfs_init)).
Proof.
  destruct (reachable_arbitration_inv rs) as (_ & _ & Hconflict & _).
  exact Hconflict.
Qed.

(** X13: after any sequence of writes, a locked minimum with
    [min_replacement] clear is the latest value pushed to the QoS
    channel. *)
Theorem unreplaced_min_is_qos_value (rs : list (env * request)) :
  cpufreq_min_limit_val (runs rs dvfs_init) <> -1 ->
  min_replacement (runs rs dvfs_init) = 0 ->
  last_qos (trace (runs rs dvfs_init))
  = Some (cpufreq_min_limit_val (runs rs dvfs_init)).
Proof.
  destruct (reachable_arbitration_inv rs) as (_ & _ & _ & Hmin & _).
  exact Hmin.
Qed.

(** X14: after any sequence of writes that leaves the minimum unlocked,
    the QoS channel was either never written or its latest value is
    PRCMU_QOS_DEFAULT_VALUE; a maximum alone never drives the channel. *)
Theorem unlocked_min_leaves_qos_default (rs : list (env * request)) :
  cpufreq_min_limit_val (runs rs dvfs_init) = -1 ->
  last_qos (trace (runs rs dvfs_init)) = None
  \/ last_qos (trace (runs rs dvfs_init)) = Some PRCMU_QOS_DEFAULT_VALUE.
Proof.
  destruct (reachable_arbitration_inv rs) as (_ & _ & _ & _ & Hunlocked).
  exact Hunlocked.
Qed.

(** X15: raising the maximum back over the minimum after a conflict
    repairs nothing: the flag stays set and the QoS channel keeps the
    old, lower maximum although the minimum now fits. *)
Theorem raising_max_after_conflict_keeps_qos
        (e : env) (s : dvfs) (a b c n la lb lc : Z) :
  a <> -1 -> b <> -1 -> c <> -1 ->
  resolves e a DVFS_MIN_LOCK_REQ = Some la ->
  resolves e b DVFS_MAX_LOCK_REQ = Some lb ->
  resolves e c DVFS_MAX_LOCK_REQ = Some lc ->
  b < a <= c ->
  let s' := runs [(e, MinLimitStore (Some a) n); (e, MaxLimitStore (Some b) n);
                  (e, MaxLimitStore (Some c) n)] s in
  globals s' = (c, a, 1) /\ last_qos (trace s') = Some b.
Proof.
  intros Ha Hb Hc Hra Hrb Hrc Horder. cbn zeta. cbn [run step].
  assert (Hgt : (a >? b) = true) by (apply Z.gtb_lt; lia).
  assert (Hle : (a >? c) = false) by (rewrite Z.gtb_ltb; apply Z.ltb_ge; lia).
  assert (Hna : (a =? -1) = false) by (apply Z.eqb_neq; exact Ha).
  rewrite (min_store_lock _ _ _ e a la n s Ha Hra). cbn zeta.
  destruct (negb (cpufreq_max_limit_val s =? -1) && (a >? cpufreq_max_limit_val s));
    cbn [snd]; rewrite (max_store_lock _ _ e b lb n _ Hb Hrb); cbn zeta;
    cbn [cpufreq_min_limit_val]; rewrite Hna, Hgt; cbn [negb andb snd];
    rewrite (max_store_lock _ _ e c lc n _ Hc Hrc); cbn zeta;
    cbn [cpufreq_min_limit_val]; rewrite Hna, Hle; cbn [negb andb snd];
    (split; [reflexivity|]); cbn [trace min_replacement];
    rewrite !last_qos_updates, last_qos_dbg, last_qos_updates; reflexivity.
Qed.

(** X16: from any state reached by writes, unlocking both limits, in
    either order, brings the three globals back to their initial
    values. *)
Theorem unlocking_both_resets
        (rs : list (env * request)) (e1 e2 : env) (n m : Z) :
  globals (runs [(e1, MinLimitStore (Some (-1)) n);
                 (e2, MaxLimitStore (Some (-1)) m)] (runs rs dvfs_init))
  = (-1, -1, 0)
  /\ globals (runs [(e2, MaxLimitStore (Some (-1)) m);
                    (e1, MinLimitStore (Some (-1)) n)] (runs rs dvfs_init))
     = (-1, -1, 0).
Proof.
  destruct (reachable_arbitration_inv rs) as (Hbool & Hlocked & _).
  set (s := runs rs dvfs_init) in *. cbn [run step].
  split.
  - rewrite min_store_unlock.
    destruct (cpufreq_min_limit_val s =? -1) eqn:Hmn; cbn [snd];
      rewrite max_store_unlock; cbn [with_trace cpufreq_max_limit_val
        cpufreq_min_limit_val min_replacement];
      destruct (cpufreq_max_limit_val s =? -1) eqn:Hmx;
      destruct (min_replacement s =? 0) eqn:Hr; to_prop;
      cbn [negb andb snd globals cpufreq_max_limit_val cpufreq_min_limit_val
             min_replacement]; rewrite ?Hmn; cbn [Z.eqb negb andb];
      try (unfold globals; cbn; repeat f_equal; lia);
      exfalso; intuition lia.
  - rewrite max_store_unlock.
    destruct (cpufreq_max_limit_val s =? -1) eqn:Hmx;
      destruct (min_replacement s =? 0) eqn:Hr;
      destruct (cpufreq_min_limit_val s =? -1) eqn:Hmn; to_prop;
      cbn [negb andb snd]; rewrite min_store_unlock;
      cbn [with_trace cpufreq_max_limit_val cpufreq_min_limit_val min_replacement];
      try (rewrite (proj2 (Z.eqb_eq _ _) Hmn));
      try (rewrite (proj2 (Z.eqb_neq _ _) Hmn));
      try (unfold globals; cbn; repeat f_equal; lia);
      exfalso; intuition lia.
Qed.

Lemma to_uint_negative (v : Z) :
  - 2 ^ 31 <= v < 0 -> to_uint v = v + 2 ^ 32.
Proof.
  intros Hv. unfold to_uint.
  rewrite <- (Z_mod_plus_full v 1 (2 ^ 32)). rewrite Z.mod_small; lia.
Qed.

(** X17: a negative request other than -1 is taken as a lock request.
    As unsigned int it is at least 2^31, so the downward scan accepts it
    on any table with an entry below 2^31; the negative value is stored
    as the maximum, and against a locked non-negative minimum it counts
    as a conflict: the flag is set and the negative value is pushed to
    the QoS channel. *)
Theorem negative_max_request_is_accepted
        (e : env) (s : dvfs) (v n : Z) (tbl : list Z) (i : nat) :
  table e = Some tbl ->
  (i < table_length CPUFREQ_TABLE_END tbl)%nat ->
  frequency CPUFREQ_TABLE_END tbl i < 2 ^ 31 ->
  - 2 ^ 31 <= v < -1 ->
  0 <= cpufreq_min_limit_val s ->
  let s' := snd (max_store e (Some v) n s) in
  globals s' = (v, cpufreq_min_limit_val s, 1)
  /\ last_qos (trace s') = Some v.
Proof.
  intros Htbl Hi Hentry Hv Hmin. cbn zeta.
  destruct (resolves e v DVFS_MAX_LOCK_REQ) as [l|] eqn:Hres.
  - rewrite (max_store_lock _ _ e v l n s ltac:(lia) Hres). cbn zeta.
    replace (cpufreq_min_limit_val s =? -1) with false
      by (symmetry; apply Z.eqb_neq; lia).
    replace (cpufreq_min_limit_val s >? v) with true
      by (symmetry; apply Z.gtb_lt; lia).
    cbn [negb andb snd trace]. split; [reflexivity|].
    rewrite last_qos_updates. reflexivity.
  - exfalso. unfold resolve in Hres. rewrite Htbl in Hres. cbn [level_scan] in Hres.
    pose proof (proj1 (scan_down_none CPUFREQ_TABLE_END tbl _ _) Hres i Hi) as Habove.
    rewrite to_uint_negative in Habove by lia. lia.
Qed.

End Handlers.

Section Notifier.

Variable CPUFREQ_TABLE_END : Z.
Variable CPUFREQ_ADJUST : Z.
Variable NOTIFY_DONE : Z.
Variable EINVAL : Z.

Abbreviation notifier :=
  (dvfs_cpufreq_notifier CPUFREQ_TABLE_END CPUFREQ_ADJUST NOTIFY_DONE EINVAL).
Abbreviation max_store := (cpufreq_max_limit_store CPUFREQ_TABLE_END EINVAL).
Abbreviation resolves := (resolve CPUFREQ_TABLE_END).

(** X18: the notifier is idempotent on the policy: run again on the
    policy it returned, under the same table and globals, it returns that
    policy unchanged, for every event. *)
Theorem notifier_is_idempotent
        (e : env) (ev : Z) (p : cpufreq_policy) (s : dvfs) :
  snd (fst (notifier e ev (snd (fst (notifier e ev p s))) s))
  = snd (fst (notifier e ev p s)).
Proof.
  destruct (Z.eq_dec ev CPUFREQ_ADJUST) as [->|Hev].
  - destruct (table e) as [tbl|] eqn:Htbl.
    + rewrite !(notifier_adjust _ _ _ _ e _ s tbl Htbl). cbn [fst snd].
      destruct (cpufreq_max_limit_val s =? -1) eqn:Hlim; cbn [negb andb].
      * reflexivity.
      * destruct (max p >? to_uint (cpufreq_max_limit_val s)) eqn:Hgt; cbn [set_policy_max max].
        -- replace (to_uint (cpufreq_max_limit_val s) >? to_uint (cpufreq_max_limit_val s))
             with false; [reflexivity|].
           symmetry. rewrite Z.gtb_ltb. apply Z.ltb_irrefl.
        -- rewrite Hgt. reflexivity.
    + unfold dvfs_cpufreq_notifier. rewrite Z.eqb_refl, Htbl. reflexivity.
  - unfold dvfs_cpufreq_notifier. apply Z.eqb_neq in Hev. rewrite Hev. reflexivity.
Qed.

(** X19: after a write to cpufreq_max_limit of a non-negative int that
    the lookup accepts, a CPUFREQ_ADJUST notification with a table at
    hand leaves the policy ceiling at the smaller of its incoming value
    and the written value. *)
Theorem accepted_max_clamps_next_policy
        (e e' : env) (s : dvfs) (v l n : Z) (p : cpufreq_policy) (tbl : list Z) :
  0 <= v < 2 ^ 31 ->
  resolves e v DVFS_MAX_LOCK_REQ = Some l ->
  table e' = Some tbl ->
  max (snd (fst (notifier e' CPUFREQ_ADJUST p (snd (max_store e (Some v) n s)))))
  = Z.min (max p) v.
Proof.
  intros Hv Hres Htbl.
  rewrite (notifier_adjust _ _ _ _ e' p _ tbl Htbl). cbn [fst snd].
  rewrite (max_store_lock _ _ e v l n s ltac:(lia) Hres). cbn zeta.
  assert (Hu : to_uint v = v) by (unfold to_uint; apply Z.mod_small; lia).
  assert (Hne : (v =? -1) = false) by (apply Z.eqb_neq; lia).
  destruct (negb (cpufreq_min_limit_val s =? -1) && (cpufreq_min_limit_val s >? v));
    cbn [snd cpufreq_max_limit_val]; rewrite Hne, Hu; cbn [negb andb];
    destruct (max p >? v) eqn:Hgt; cbn [set_policy_max max];
    rewrite Z.gtb_ltb in Hgt;
    try apply Z.ltb_lt in Hgt; try apply Z.ltb_ge in Hgt; lia.
Qed.

End Notifier.

Section PmAttributes.

Variable EINVAL : Z.

Lemma writes_keep {B : Type} (store : B -> Z -> Z -> Z * Z) (P : Z -> Prop) :
  (forall b n g, P g -> P (snd (store b n g))) ->
  forall ws g, P g -> P (writes store ws g).
Proof.
  intros Hstep ws. unfold writes.
  induction ws as [|[b n] ws IH]; intros g Hg; cbn [fold_left fst snd].
  - exact Hg.
  - apply IH, Hstep, Hg.
Qed.

(** X20: [pm_async_store] accepts 0 and 1 only.  After any sequence of
    writes [pm_async_enabled] is 0 or 1, a write that parses to 0 or 1
    is stored and returns the byte count, and any other write returns
    -EINVAL and leaves the value as it was. *)
Theorem pm_async_enabled_stays_boolean (ws : list (option N * Z)) :
  (writes (pm_async_store EINVAL) ws pm_async_init = 0
   \/ writes (pm_async_store EINVAL) ws pm_async_init = 1)
  /\ (forall (val : N) (n g : Z),
         ((val <= 1)%N -> pm_async_store EINVAL (Some val) n g = (n, Z.of_N val))
         /\ ((1 < val)%N -> pm_async_store EINVAL (Some val) n g = (- EINVAL, g)))
  /\ (forall n g : Z, pm_async_store EINVAL None n g = (- EINVAL, g)).
Proof.
  split; [|split].
  - apply (writes_keep (pm_async_store EINVAL) (fun g => g = 0 \/ g = 1)).
    + intros [val|] n g Hg; cbn [pm_async_store snd]; [|exact Hg].
      destruct (1 <? val)%N eqn:Hlt; cbn [snd]; [exact Hg|].
      apply N.ltb_ge in Hlt. lia.
    + right. reflexivity.
  - intros val n g. unfold pm_async_store. split; intros Hval.
    + apply N.ltb_ge in Hval. rewrite Hval. reflexivity.
    + apply N.ltb_lt in Hval. rewrite Hval. reflexivity.
  - reflexivity.
Qed.

(** X21: [pm_trace_store] normalises what it stores.  After any
    sequence of writes [pm_trace_enabled] is 0 or 1; every integer is
    accepted, and every integer other than 0, negative ones included,
    enables tracing. *)
Theorem pm_trace_enabled_stays_boolean (ws : list (option Z * Z)) :
  (writes (pm_trace_store EINVAL) ws pm_trace_init = 0
   \/ writes (pm_trace_store EINVAL) ws pm_trace_init = 1)
  /\ (forall val n g : Z,
         fst (pm_trace_store EINVAL (Some val) n g) = n
         /\ (snd (pm_trace_store EINVAL (Some val) n g) = 1 <-> val <> 0)).
Proof.
  split.
  - apply (writes_keep (pm_trace_store EINVAL) (fun g => g = 0 \/ g = 1)).
    + intros [val|] n g Hg; cbn [pm_trace_store snd]; [|exact Hg].
      destruct (val =? 0); [left|right]; reflexivity.
    + left. reflexivity.
  - intros val n g. cbn [pm_trace_store fst snd]. split; [reflexivity|].
    destruct (val =? 0) eqn:Hz.
    + apply Z.eqb_eq in Hz. split; [discriminate|intros H; contradiction].
    + apply Z.eqb_neq in Hz. split; [intros _; exact Hz|reflexivity].
Qed.

End PmAttributes.

Section CStrings.

Lemma plain_strlen (s : string) : plain s = true -> strlen s = String.length s.
Proof.
  induction s as [|c r IH]; cbn [plain strlen String.length]; [reflexivity|].
  intros H. apply andb_prop in H. destruct H as [H Hr].
  apply andb_prop in H. destruct H as [Hz _].
  apply negb_true_iff in Hz. rewrite Hz. f_equal. apply IH, Hr.
Qed.

Lemma strncmp_zero_prefix (nm buf : string) :
  plain nm = true ->
  strncmp_zero buf nm (String.length nm) = true ->
  exists rest : string, buf = (nm ++ rest)%string.
Proof.
  revert buf; induction nm as [|c r IH]; intros buf Hplain Hcmp.
  - exists buf. reflexivity.
  - cbn [plain] in Hplain. apply andb_prop in Hplain. destruct Hplain as [H Hr].
    apply andb_prop in H. destruct H as [Hz _]. apply negb_true_iff in Hz.
    cbn [String.length strncmp_zero c_head c_tail] in Hcmp.
    destruct buf as [|x buf']; cbn [c_head c_tail] in Hcmp.
    + rewrite Ascii.eqb_sym, Hz in Hcmp. discriminate.
    + destruct (Ascii.eqb x c) eqn:Hxc; [|discriminate].
      apply Ascii.eqb_eq in Hxc. subst x. rewrite Hz in Hcmp.
      destruct (IH buf' Hr Hcmp) as [rest ->]. exists rest. reflexivity.
Qed.

Lemma strncmp_zero_append (nm rest : string) :
  plain nm = true ->
  strncmp_zero (nm ++ rest) nm (String.length nm) = true.
Proof.
  induction nm as [|c r IH]; intros Hplain; [reflexivity|].
  cbn [plain] in Hplain. apply andb_prop in Hplain. destruct Hplain as [H Hr].
  apply andb_prop in H. destruct H as [Hz _]. apply negb_true_iff in Hz.
  cbn [append String.length strncmp_zero c_head c_tail].
  rewrite Ascii.eqb_refl, Hz. apply IH, Hr.
Qed.

Lemma memchr_plain_end (nm : string) :
  plain nm = true -> memchr nm newline (String.length nm) = None.
Proof.
  induction nm as [|c r IH]; intros Hplain; [reflexivity|].
  cbn [plain] in Hplain. apply andb_prop in Hplain. destruct Hplain as [H Hr].
  apply andb_prop in H. destruct H as [_ Hn]. apply negb_true_iff in Hn.
  cbn [String.length memchr]. rewrite Hn, (IH Hr). reflexivity.
Qed.

Lemma memchr_plain_newline (nm r : string) :
  plain nm = true ->
  memchr (nm ++ String newline r) newline
         (String.length (nm ++ String newline r))
  = Some (String.length nm).
Proof.
  induction nm as [|c nm IH]; intros Hplain.
  - cbn [append String.length memchr]. rewrite Ascii.eqb_refl. reflexivity.
  - cbn [plain] in Hplain. apply andb_prop in Hplain. destruct Hplain as [H Hr].
    apply andb_prop in H. destruct H as [_ Hn]. apply negb_true_iff in Hn.
    cbn [append String.length memchr]. rewrite Hn, (IH Hr). reflexivity.
Qed.

Lemma append_same_length (a b ra rb : string) :
  (a ++ ra)%string = (b ++ rb)%string ->
  String.length a = String.length b ->
  a = b.
Proof.
  revert b; induction a as [|x a IH]; intros [|y b] Heq Hlen;
    cbn [String.length append] in *; try discriminate; [reflexivity|].
  injection Heq as -> Heq. f_equal. apply (IH b Heq). lia.
Qed.

Lemma substring_append (nm rest : string) :
  substring 0 (String.length nm) (nm ++ rest) = nm.
Proof.
  induction nm as [|c nm IH]; cbn [String.length append substring].
  - destruct rest; reflexivity.
  - f_equal. exact IH.
Qed.

Lemma append_assoc3 (a b c : string) :
  ((a ++ b) ++ c)%string = (a ++ b ++ c)%string.
Proof.
  induction a as [|x a IH]; cbn [append]; [reflexivity|]. f_equal. exact IH.
Qed.

Lemma set_last_append (a b : string) (x : ascii) :
  b <> EmptyString ->
  set_last (a ++ b) x = (a ++ set_last b x)%string.
Proof.
  intros Hb. induction a as [|c a IH]; [reflexivity|].
  cbn [append]. 
  destruct (a ++ b)%string as [|a0 s] eqn:Hab.
  - destruct a; [cbn in Hab; contradiction|discriminate].
  - change (set_last (String c (String a0 s)) x)
      with (String c (set_last (String a0 s) x)).
    rewrite IH. reflexivity.
Qed.

Lemma set_last_ends (s : string) (x : ascii) :
  s <> EmptyString ->
  exists body : string, set_last s x = (body ++ String x EmptyString)%string.
Proof.
  induction s as [|c s IH]; intros Hs; [contradiction|].
  destruct s as [|d s].
  - exists EmptyString. reflexivity.
  - destruct IH as [body Hbody]; [discriminate|].
    exists (String c body).
    change (set_last (String c (String d s)) x)
      with (String c (set_last (String d s) x)).
    rewrite Hbody. reflexivity.
Qed.

End CStrings.

Section PmTestProperties.

Variable TEST_NONE : nat.
Variable TEST_CORE : nat.
Variable TEST_CPUS : nat.
Variable TEST_PLATFORM : nat.
Variable TEST_DEVICES : nat.
Variable TEST_FREEZER : nat.
Variable TEST_FIRST : nat.
Variable TEST_MAX : nat.
Variable EINVAL : Z.

Abbreviation inits :=
  (pm_tests_init TEST_NONE TEST_CORE TEST_CPUS TEST_PLATFORM TEST_DEVICES
                 TEST_FREEZER).
Abbreviation tests :=
  (pm_tests TEST_NONE TEST_CORE TEST_CPUS TEST_PLATFORM TEST_DEVICES
            TEST_FREEZER).
Abbreviation levels := (test_levels TEST_FIRST TEST_MAX).
Abbreviation matching :=
  (pm_test_match TEST_NONE TEST_CORE TEST_CPUS TEST_PLATFORM TEST_DEVICES
                 TEST_FREEZER).
Abbreviation fits :=
  (pm_test_fits TEST_NONE TEST_CORE TEST_CPUS TEST_PLATFORM TEST_DEVICES
                TEST_FREEZER).
Abbreviation test_store :=
  (pm_test_store TEST_NONE TEST_CORE TEST_CPUS TEST_PLATFORM TEST_DEVICES
                 TEST_FREEZER TEST_FIRST TEST_MAX EINVAL).

Lemma last_init_found (l : list (nat * string)) (level : nat)
      (found : option string) (nm : string) :
  last_init l level found = Some nm ->
  found = Some nm \/ In (level, nm) l.
Proof.
  revert found; induction l as [|[i x] l IH]; intros found; cbn [last_init].
  - intros H. left. exact H.
  - intros H. destruct (IH _ H) as [Hf|Hin]; [|right; right; exact Hin].
    destruct (Nat.eqb_spec i level) as [->|Hne].
    + injection Hf as ->. right. left. reflexivity.
    + left. exact Hf.
Qed.

Lemma last_init_absent (l : list (nat * string)) (level : nat)
      (found : option string) :
  ~ In level (map fst l) -> last_init l level found = found.
Proof.
  revert found; induction l as [|[i x] l IH]; intros found Hnot; cbn [last_init].
  - reflexivity.
  - cbn [map fst In] in Hnot. rewrite IH by tauto.
    destruct (Nat.eqb_spec i level) as [->|Hne]; [tauto|reflexivity].
Qed.

Lemma last_init_nodup (l : list (nat * string)) (level : nat)
      (found : option string) (nm : string) :
  NoDup (map fst l) -> In (level, nm) l -> last_init l level found = Some nm.
Proof.
  revert found; induction l as [|[i x] l IH]; intros found Hnd Hin; [destruct Hin|].
  cbn [map fst] in Hnd. inversion Hnd as [|? ? Hfresh Hrest]; subst.
  cbn [last_init]. destruct Hin as [[= -> ->]|Hin].
  - rewrite Nat.eqb_refl. apply last_init_absent. exact Hfresh.
  - apply IH; assumption.
Qed.

Lemma tests_in (level : nat) (nm : string) :
  tests level = Some nm -> In (level, nm) inits.
Proof.
  intros H. destruct (last_init_found _ _ _ _ H) as [Hf|Hin];
    [discriminate|exact Hin].
Qed.

Lemma inits_plain (level : nat) (nm : string) :
  In (level, nm) inits -> plain nm = true.
Proof.
  unfold pm_tests_init. cbn [In].
  intros [H|[H|[H|[H|[H|[H|[]]]]]]]; injection H as _ <-; reflexivity.
Qed.

Lemma inits_names_differ (l l' : nat) (nm : string) :
  In (l, nm) inits -> In (l', nm) inits -> l = l'.
Proof.
  unfold pm_tests_init. cbn [In].
  intros [H|[H|[H|[H|[H|[H|[]]]]]]] [H'|[H'|[H'|[H'|[H'|[H'|[]]]]]]];
    injection H as <- <-; first [discriminate H' | injection H' as <-; reflexivity].
Qed.

Lemma levels_in (level : nat) :
  In level levels <-> (TEST_FIRST <= level <= TEST_MAX)%nat.
Proof. unfold test_levels. rewrite in_seq. lia. Qed.

Lemma matching_unique (ls : list nat) (buf : string) (len level : nat) :
  In level ls ->
  fits buf len level = true ->
  (forall y, In y ls -> fits buf len y = true -> y = level) ->
  matching ls buf len = Some level.
Proof.
  unfold pm_test_fits. induction ls as [|x ls IH]; intros Hin Hfit Huniq; [destruct Hin|].
  cbn [pm_test_match].
  destruct (tests x) as [nm|] eqn:Hx.
  - destruct ((len =? strlen nm)%nat && strncmp_zero buf nm len) eqn:Hc.
    + f_equal. apply Huniq; [left; reflexivity|]. rewrite Hx. exact Hc.
    + destruct Hin as [->|Hin]; [rewrite Hx, Hc in Hfit; discriminate|].
      apply IH; [exact Hin|exact Hfit|]. intros y Hy. apply Huniq. right. exact Hy.
  - destruct Hin as [->|Hin]; [rewrite Hx in Hfit; discriminate|].
    apply IH; [exact Hin|exact Hfit|]. intros y Hy. apply Huniq. right. exact Hy.
Qed.

Lemma matching_none (ls : list nat) (buf : string) (len : nat) :
  (forall y, In y ls -> fits buf len y = false) ->
  matching ls buf len = None.
Proof.
  unfold pm_test_fits. induction ls as [|x ls IH]; intros Hnone; [reflexivity|].
  cbn [pm_test_match]. pose proof (Hnone x (or_introl eq_refl)) as Hx.
  destruct (tests x) as [nm|]; [rewrite Hx|];
    apply IH; intros y Hy; apply Hnone; right; exact Hy.
Qed.

(** X22: writing the name of a test level, alone or followed by a
    newline and anything else, selects that level: when the level
    constants are distinct and the level lies between TEST_FIRST and
    TEST_MAX, [pm_test_store] sets [pm_test_level] to it and returns the
    length of the write. *)
Theorem pm_test_store_accepts_name
        (level cur : nat) (nm rest : string) :
  NoDup (map fst inits) ->
  In (level, nm) inits ->
  (TEST_FIRST <= level <= TEST_MAX)%nat ->
  rest = EmptyString \/ (exists r, rest = String newline r) ->
  test_store (nm ++ rest) cur
  = (Z.of_nat (String.length (nm ++ rest)), level).
Proof.
  intros Hnd Hin Hrange Hrest.
  pose proof (inits_plain _ _ Hin) as Hplain.
  assert (Hlen : line_length (nm ++ rest) = String.length nm).
  { unfold line_length. destruct Hrest as [->|[r ->]].
    - replace (nm ++ "")%string with nm
        by (clear; induction nm as [|c nm IH]; cbn; [reflexivity|f_equal; exact IH]).
      rewrite memchr_plain_end by exact Hplain. reflexivity.
    - rewrite memchr_plain_newline by exact Hplain. reflexivity. }
  unfold pm_test_store. rewrite Hlen.
  rewrite (matching_unique levels (nm ++ rest) (String.length nm) level);
    [reflexivity| | |].
  - apply levels_in. exact Hrange.
  - unfold pm_test_fits. unfold pm_tests. rewrite (last_init_nodup _ _ _ _ Hnd Hin).
    rewrite (plain_strlen _ Hplain), Nat.eqb_refl.
    apply strncmp_zero_append. exact Hplain.
  - intros y _ Hy. unfold pm_test_fits in Hy.
    destruct (tests y) as [nm'|] eqn:Hty; [|discriminate].
    apply tests_in in Hty. pose proof (inits_plain _ _ Hty) as Hplain'.
    apply andb_prop in Hy. destruct Hy as [Hl Hcmp].
    apply Nat.eqb_eq in Hl. rewrite (plain_strlen _ Hplain') in Hl.
    rewrite Hl in Hcmp.
    destruct (strncmp_zero_prefix _ _ Hplain' Hcmp) as [rest' Heq].
    assert (nm = nm') by (apply (append_same_length _ _ _ _ Heq); exact Hl).
    subst nm'. apply (inits_names_differ _ _ _ Hty Hin).
Qed.

(** X23: a write whose text up to the first newline is not the name of
    a level between TEST_FIRST and TEST_MAX is refused:
    [pm_test_store] returns -EINVAL and leaves [pm_test_level] as it
    was. *)
Theorem pm_test_store_rejects_other_text (buf : string) (cur : nat) :
  EINVAL <> 0 ->
  (forall level nm,
      In (level, nm) inits ->
      (TEST_FIRST <= level <= TEST_MAX)%nat ->
      nm <> first_line buf) ->
  test_store buf cur = (- EINVAL, cur).
Proof.
  intros Herr Hother. unfold pm_test_store.
  rewrite matching_none.
  - replace (- EINVAL =? 0) with false; [reflexivity|].
    symmetry. apply Z.eqb_neq. lia.
  - intros y Hy. unfold pm_test_fits. destruct (tests y) as [nm|] eqn:Hty; [|reflexivity].
    apply tests_in in Hty. pose proof (inits_plain _ _ Hty) as Hplain.
    apply levels_in in Hy.
    destruct ((line_length buf =? strlen nm)%nat
              && strncmp_zero buf nm (line_length buf)) eqn:Hc; [|reflexivity].
    exfalso. apply (Hother y nm Hty Hy).
    apply andb_prop in Hc. destruct Hc as [Hl Hcmp].
    apply Nat.eqb_eq in Hl. rewrite (plain_strlen _ Hplain) in Hl.
    rewrite Hl in Hcmp.
    destruct (strncmp_zero_prefix _ _ Hplain Hcmp) as [rest Heq].
    unfold first_line. fold (line_length buf). rewrite Hl, Heq.
    symmetry. apply substring_append.
Qed.

Abbreviation names :=
  (pm_test_names TEST_NONE TEST_CORE TEST_CPUS TEST_PLATFORM TEST_DEVICES
                 TEST_FREEZER).
Abbreviation test_show :=
  (pm_test_show TEST_NONE TEST_CORE TEST_CPUS TEST_PLATFORM TEST_DEVICES
                TEST_FREEZER TEST_FIRST TEST_MAX).

Lemma names_mark_level (ls : list nat) (level : nat) (nm : string) :
  In level ls ->
  tests level = Some nm ->
  exists pre post : string,
    names ls level = (pre ++ ("[" ++ nm ++ "]") ++ " " ++ post)%string.
Proof.
  intros Hin Hnm. induction ls as [|x ls IH]; [destruct Hin|].
  cbn [pm_test_names]. destruct (Nat.eqb_spec x level) as [->|Hne].
  - rewrite Hnm. exists EmptyString, (names ls level).
    cbn [append]. rewrite append_assoc3. reflexivity.
  - destruct Hin as [->|Hin]; [contradiction|].
    destruct (IH Hin) as (pre & post & ->).
    destruct (tests x) as [nm'|].
    + exists (nm' ++ " " ++ pre)%string, post. rewrite !append_assoc3. reflexivity.
    + exists pre, post. reflexivity.
Qed.

(** X24: [pm_test_show] marks the level in force.  When the level
    constants are distinct and [pm_test_level] is the level of a name
    between TEST_FIRST and TEST_MAX, the line written holds that name in
    square brackets and ends with a newline, and the value returned is
    the length of the line. *)
Theorem pm_test_show_marks_level (level : nat) (nm : string) :
  NoDup (map fst inits) ->
  In (level, nm) inits ->
  (TEST_FIRST <= level <= TEST_MAX)%nat ->
  exists pre post : string,
    fst (test_show level)
    = (pre ++ ("[" ++ nm ++ "]") ++ post ++ String newline EmptyString)%string
    /\ snd (test_show level) = Z.of_nat (String.length (fst (test_show level))).
Proof.
  intros Hnd Hin Hrange. unfold pm_test_show. cbn [fst snd].
  destruct (names_mark_level levels level nm) as (pre & post & ->).
  - apply levels_in. exact Hrange.
  - apply last_init_nodup; assumption.
  - rewrite set_last_append by (destruct nm; discriminate).
    rewrite set_last_append by discriminate.
    destruct (set_last_ends (" " ++ post) newline) as [body ->]; [discriminate|].
    exists pre, body. split; reflexivity.
Qed.

End PmTestProperties.

(** ** Concrete runs with the mainline constants *)

Import Linux.

(** *** C1 *)

Lemma priority_on_requested_values_witness :
  let min_first :=
    Linux.run [(scenario, MinLimitStore (Some 400) 4);
               (scenario, MaxLimitStore (Some 350) 4)] dvfs_init in
  let max_first :=
    Linux.run [(scenario, MaxLimitStore (Some 350) 4);
               (scenario, MinLimitStore (Some 400) 4)] dvfs_init in
  (globals min_first = (350, 400, 1) /\ last_qos (trace min_first) = Some 350)
  /\ (globals max_first = (350, 400, 1) /\ last_qos (trace max_first) = Some 350).
Proof.
  apply (priority_on_requested_values
           CPUFREQ_TABLE_END EINVAL PRCMU_QOS_DEFAULT_VALUE
           scenario dvfs_init 400 350 4 4 400 300);
    [lia | lia | reflexivity | reflexivity | lia].
Defined.

(** The requests 250 and 299 resolve to the levels 300 and 200, so the
    levels conflict; the handlers compare 250 with 299, leave
    [min_replacement] at 0 in both orders and never push the level 200.
    And where the requests themselves conflict (400 over 350, levels 400
    and 300) the value pushed is the request 350, not its level. *)
Lemma priority_on_levels_counterexample :
  (Linux.resolve scenario 250 DVFS_MIN_LOCK_REQ = Some 300
   /\ Linux.resolve scenario 299 DVFS_MAX_LOCK_REQ = Some 200
   /\ 300 > 200
   /\ globals (Linux.run [(scenario, MinLimitStore (Some 250) 4);
                          (scenario, MaxLimitStore (Some 299) 4)] dvfs_init)
      = (299, 250, 0)
   /\ globals (Linux.run [(scenario, MaxLimitStore (Some 299) 4);
                          (scenario, MinLimitStore (Some 250) 4)] dvfs_init)
      = (299, 250, 0)
   /\ last_qos (trace (Linux.run [(scenario, MinLimitStore (Some 250) 4);
                                  (scenario, MaxLimitStore (Some 299) 4)] dvfs_init))
      = Some 250)
  /\ (Linux.resolve scenario 350 DVFS_MAX_LOCK_REQ = Some 300
      /\ last_qos (trace (Linux.run [(scenario, MinLimitStore (Some 400) 4);
                                     (scenario, MaxLimitStore (Some 350) 4)] dvfs_init))
         = Some 350
      /\ Some 350 <> Some 300).
Proof. repeat split; try reflexivity; try lia; discriminate. Qed.

(** *** C2 *)

Lemma max_store_records_request_witness :
  cpufreq_max_limit_val (snd (Linux.max_store scenario (Some 350) 4 dvfs_init)) = 350
  /\ cpufreq_max_limit_val
       (snd (Linux.max_store scenario (Some (-1)) 3 conflict_state)) = -1.
Proof.
  split.
  - apply (proj1 (max_store_records_request
                    CPUFREQ_TABLE_END EINVAL scenario dvfs_init 4) 350 300);
      [lia | reflexivity].
  - apply (proj2 (max_store_records_request
                    CPUFREQ_TABLE_END EINVAL scenario conflict_state 3)).
Defined.

(** The request 350 resolves to the level 300, and 350 is what is
    stored. *)
Lemma max_store_level_counterexample :
  Linux.resolve scenario 350 DVFS_MAX_LOCK_REQ = Some 300
  /\ fst (Linux.max_store scenario (Some 350) 4 dvfs_init) = 4
  /\ cpufreq_max_limit_val (snd (Linux.max_store scenario (Some 350) 4 dvfs_init)) = 350
  /\ 350 <> 300.
Proof. repeat split; try reflexivity. lia. Qed.

(** *** C3 *)

Lemma max_unlock_restores_witness :
  min_replacement conflict_state = 1
  /\ cpufreq_min_limit_val conflict_state <> -1
  /\ min_replacement (snd (Linux.max_store scenario (Some (-1)) 3 conflict_state)) = 0
  /\ cpufreq_max_limit_val
       (snd (Linux.max_store scenario (Some (-1)) 3 conflict_state)) = -1
  /\ last_qos (trace (snd (Linux.max_store scenario (Some (-1)) 3 conflict_state)))
     = Some (cpufreq_min_limit_val conflict_state).
Proof.
  split; [reflexivity|].
  apply (max_unlock_restores_requested_min
           CPUFREQ_TABLE_END EINVAL PRCMU_QOS_DEFAULT_VALUE
           scenario conflict_state 3).
  - exists conflict_run. reflexivity.
  - vm_compute. discriminate.
Defined.

(** In the conflict state the stored minimum 250 has the level 300; the
    unlock of the maximum pushes 250. *)
Lemma max_unlock_level_counterexample :
  min_replacement conflict_state = 1
  /\ cpufreq_min_limit_val conflict_state = 250
  /\ Linux.resolve scenario 250 DVFS_MIN_LOCK_REQ = Some 300
  /\ last_qos (trace (snd (Linux.max_store scenario (Some (-1)) 3 conflict_state)))
     = Some 250
  /\ Some 250 <> Some 300.
Proof. repeat split; try reflexivity. discriminate. Qed.

(** *** C4 *)

Lemma min_lock_compatible_witness :
  (Linux.resolve scenario 250 DVFS_MIN_LOCK_REQ = Some 300
   /\ cpufreq_max_limit_val dvfs_init = -1
   /\ min_replacement dvfs_init = 0)
  /\ cpufreq_min_limit_val (snd (Linux.min_store scenario (Some 250) 4 dvfs_init)) = 250
  /\ cpufreq_max_limit_val (snd (Linux.min_store scenario (Some 250) 4 dvfs_init)) = -1
  /\ last_qos (trace (snd (Linux.min_store scenario (Some 250) 4 dvfs_init))) = Some 250
  /\ min_replacement (snd (Linux.min_store scenario (Some 250) 4 dvfs_init)) = 0.
Proof.
  split; [repeat split|].
  destruct (min_lock_compatible_pushes_request
              CPUFREQ_TABLE_END EINVAL PRCMU_QOS_DEFAULT_VALUE
              scenario dvfs_init 250 300 4
              ltac:(lia) eq_refl (or_introl eq_refl))
    as (Hmin & Hmax & Hqos & Hflag).
  split; [exact Hmin|]. split; [exact Hmax|]. split; [exact Hqos|].
  exact (Hflag eq_refl).
Defined.

(** With the maximum unlocked the request 250, whose level is 300, is
    pushed as 250. *)
Lemma min_lock_level_counterexample :
  cpufreq_max_limit_val dvfs_init = -1
  /\ Linux.resolve scenario 250 DVFS_MIN_LOCK_REQ = Some 300
  /\ last_qos (trace (snd (Linux.min_store scenario (Some 250) 4 dvfs_init))) = Some 250
  /\ Some 250 <> Some 300.
Proof. repeat split; try reflexivity. discriminate. Qed.

(** A set flag survives a later minimum that fits under the maximum. *)
Lemma min_lock_keeps_raised_flag :
  globals (Linux.run [(scenario, MinLimitStore (Some 400) 4);
                      (scenario, MaxLimitStore (Some 350) 4);
                      (scenario, MinLimitStore (Some 300) 4)] dvfs_init)
  = (350, 300, 1).
Proof. reflexivity. Qed.

(** *** C5 *)

Lemma invalid_lock_request_witness :
  (Linux.resolve scenario 50 DVFS_MAX_LOCK_REQ = None
   /\ Linux.resolve scenario 600 DVFS_MIN_LOCK_REQ = None)
  /\ (fst (Linux.max_store scenario (Some 50) 3 conflict_state) = 3
      /\ globals (snd (Linux.max_store scenario (Some 50) 3 conflict_state))
         = globals conflict_state
      /\ outgoing (trace (snd (Linux.max_store scenario (Some 50) 3 conflict_state)))
         = outgoing (trace conflict_state))
  /\ (fst (Linux.min_store scenario (Some 600) 4 conflict_state) = 4
      /\ globals (snd (Linux.min_store scenario (Some 600) 4 conflict_state))
         = globals conflict_state
      /\ outgoing (trace (snd (Linux.min_store scenario (Some 600) 4 conflict_state)))
         = outgoing (trace conflict_state)).
Proof.
  split; [split; reflexivity|]. split.
  - apply (proj1 (invalid_lock_request_is_accepted
                    CPUFREQ_TABLE_END EINVAL PRCMU_QOS_DEFAULT_VALUE
                    scenario conflict_state 50 3
                    ltac:(unfold EINVAL; lia) ltac:(lia))).
    reflexivity.
  - apply (proj2 (invalid_lock_request_is_accepted
                    CPUFREQ_TABLE_END EINVAL PRCMU_QOS_DEFAULT_VALUE
                    scenario conflict_state 600 4
                    ltac:(unfold EINVAL; lia) ltac:(lia))).
    reflexivity.
Defined.

(** 600 is above and 50 below every entry of the table: neither
    resolves, and both writes return their byte count, not -EINVAL. *)
Lemma invalid_lock_error_counterexample :
  Linux.resolve scenario 600 DVFS_MIN_LOCK_REQ = None
  /\ fst (Linux.min_store scenario (Some 600) 4 dvfs_init) = 4
  /\ Linux.resolve scenario 50 DVFS_MAX_LOCK_REQ = None
  /\ fst (Linux.max_store scenario (Some 50) 3 dvfs_init) = 3
  /\ 4 <> - EINVAL /\ 3 <> - EINVAL.
Proof. repeat split; try reflexivity; unfold EINVAL; lia. Qed.

(** *** C6 *)

(** C6 at a table with an invalid entry in the middle: 400 is above 300,
    the highest frequency [cpufreq_table_show] lists, yet the upward scan
    stops at the invalid marker, [get_cpufreq_level] returns VALID_LEVEL
    and the minimum is locked at 400. *)
Theorem min_lock_matches_invalid_entry :
  cpufreq_table_show CPUFREQ_TABLE_END CPUFREQ_ENTRY_INVALID holed (Some some_policy)
  = Some [300; 100]
  /\ fst (get_cpufreq_level CPUFREQ_TABLE_END EINVAL holed (to_uint 400)
                            DVFS_MIN_LOCK_REQ dvfs_init)
     = (VALID_LEVEL, Some CPUFREQ_ENTRY_INVALID)
  /\ Linux.min_store holed (Some 400) 4 dvfs_init
     = (4, mkDvfs (-1) 400 0 [QosUpdate 400]).
Proof. repeat split. Qed.

(** *** C7 *)

(** C7 at a table whose last entry is invalid: with the maximum unlocked
    the notifier sets the ceiling to the invalid marker, not to 200, the
    highest frequency [cpufreq_table_show] lists. *)
Theorem notifier_unlocked_reads_invalid_entry :
  cpufreq_table_show CPUFREQ_TABLE_END CPUFREQ_ENTRY_INVALID capped (Some some_policy)
  = Some [200; 100]
  /\ cpufreq_max_limit_val dvfs_init = -1
  /\ Linux.notifier capped CPUFREQ_ADJUST some_policy dvfs_init
     = (NOTIFY_DONE, set_policy_max some_policy CPUFREQ_ENTRY_INVALID, dvfs_init).
Proof. repeat split. Qed.

(** *** C9 *)

Lemma replacement_implies_min_locked_witness :
  min_replacement (Linux.run conflict_run dvfs_init) = 1
  /\ cpufreq_min_limit_val (Linux.run conflict_run dvfs_init) <> -1.
Proof.
  split; [reflexivity|].
  apply (replacement_implies_min_locked
           CPUFREQ_TABLE_END EINVAL PRCMU_QOS_DEFAULT_VALUE conflict_run).
  vm_compute. discriminate.
Defined.

(** *** C10 *)

Lemma notifier_other_event_witness :
  Linux.notifier scenario 1 some_policy conflict_state
  = (NOTIFY_DONE, some_policy, conflict_state).
Proof.
  apply (notifier_writes_policy_max_only
           CPUFREQ_TABLE_END CPUFREQ_ADJUST NOTIFY_DONE EINVAL
           scenario 1 some_policy conflict_state).
  unfold CPUFREQ_ADJUST. lia.
Defined.

(** ** Concrete runs for the further properties *)




Lemma level_scan_monotone_witness :
  level_scan CPUFREQ_TABLE_END scenario_table 250 DVFS_MIN_LOCK_REQ <> None
  /\ level_scan CPUFREQ_TABLE_END scenario_table 450 DVFS_MAX_LOCK_REQ <> None.
Proof.
  destruct (level_scan_success_is_monotone
              CPUFREQ_TABLE_END scenario_table 450 250 ltac:(lia))
    as [Hmin Hmax].
  split; [apply Hmin|apply Hmax]; cbn; discriminate.
Defined.



Lemma table_show_without_policy_witness :
  cpufreq_table_show CPUFREQ_TABLE_END CPUFREQ_ENTRY_INVALID scenario None
  = Some [].
Proof.
  apply (table_show_without_policy_lists_nothing
           CPUFREQ_TABLE_END CPUFREQ_ENTRY_INVALID scenario scenario_table eq_refl).
Defined.

Lemma max_store_change_witness :
  policy_events (trace (snd (Linux.max_store scenario (Some 350) 4 dvfs_init)))
  = [PolicyUpdate 1; PolicyUpdate 0].
Proof.
  apply (max_store_change_updates_every_cpu
           CPUFREQ_TABLE_END EINVAL scenario (Some 350) 4 dvfs_init).
  vm_compute. discriminate.
Defined.

Lemma conflict_is_replaced_witness :
  min_replacement (Linux.run conflict_run dvfs_init) = 1
  /\ last_qos (trace (Linux.run conflict_run dvfs_init)) = Some 150.
Proof.
  apply (conflict_is_always_replaced
           CPUFREQ_TABLE_END EINVAL PRCMU_QOS_DEFAULT_VALUE conflict_run);
    vm_compute; (discriminate || reflexivity).
Defined.

Lemma unreplaced_min_witness :
  last_qos (trace (Linux.run [(scenario, MinLimitStore (Some 250) 4);
                              (scenario, MaxLimitStore (Some 350) 4)] dvfs_init))
  = Some 250.
Proof.
  apply (unreplaced_min_is_qos_value
           CPUFREQ_TABLE_END EINVAL PRCMU_QOS_DEFAULT_VALUE
           [(scenario, MinLimitStore (Some 250) 4);
            (scenario, MaxLimitStore (Some 350) 4)]);
    vm_compute; (discriminate || reflexivity).
Defined.

Lemma unlocked_min_witness :
  last_qos (trace (Linux.run (conflict_run ++ [(scenario, MinLimitStore (Some (-1)) 3)])
                             dvfs_init)) = None
  \/ last_qos (trace (Linux.run (conflict_run ++ [(scenario, MinLimitStore (Some (-1)) 3)])
                                dvfs_init)) = Some PRCMU_QOS_DEFAULT_VALUE.
Proof.
  apply (unlocked_min_leaves_qos_default
           CPUFREQ_TABLE_END EINVAL PRCMU_QOS_DEFAULT_VALUE
           (conflict_run ++ [(scenario, MinLimitStore (Some (-1)) 3)])).
  reflexivity.
Defined.

Lemma raising_max_witness :
  globals (Linux.run [(scenario, MinLimitStore (Some 400) 4);
                      (scenario, MaxLimitStore (Some 200) 4);
                      (scenario, MaxLimitStore (Some 500) 4)] dvfs_init)
  = (500, 400, 1)
  /\ last_qos (trace (Linux.run [(scenario, MinLimitStore (Some 400) 4);
                                 (scenario, MaxLimitStore (Some 200) 4);
                                 (scenario, MaxLimitStore (Some 500) 4)] dvfs_init))
     = Some 200.
Proof.
  apply (raising_max_after_conflict_keeps_qos
           CPUFREQ_TABLE_END EINVAL PRCMU_QOS_DEFAULT_VALUE
           scenario dvfs_init 400 200 500 4 400 200 500);
    (lia || reflexivity).
Defined.

Lemma negative_max_request_witness :
  globals (snd (Linux.max_store scenario (Some (-2)) 3
                                (Linux.run [(scenario, MinLimitStore (Some 250) 4)]
                                           dvfs_init)))
  = (-2, 250, 1)
  /\ last_qos (trace (snd (Linux.max_store scenario (Some (-2)) 3
                             (Linux.run [(scenario, MinLimitStore (Some 250) 4)]
                                        dvfs_init))))
     = Some (-2).
Proof.
  apply (negative_max_request_is_accepted
           CPUFREQ_TABLE_END EINVAL scenario
           (Linux.run [(scenario, MinLimitStore (Some 250) 4)] dvfs_init)
           (-2) 3 scenario_table 0%nat eq_refl);
    [vm_compute; lia | vm_compute; reflexivity | lia | vm_compute; discriminate].
Defined.

Lemma accepted_max_clamps_witness :
  max (snd (fst (Linux.notifier scenario CPUFREQ_ADJUST some_policy
                   (snd (Linux.max_store scenario (Some 150) 4 dvfs_init)))))
  = 150.
Proof.
  apply (accepted_max_clamps_next_policy
           CPUFREQ_TABLE_END CPUFREQ_ADJUST NOTIFY_DONE EINVAL
           scenario scenario dvfs_init 150 100 4 some_policy scenario_table);
    [lia | reflexivity | reflexivity].
Defined.

Lemma power_h_levels_distinct : NoDup (map fst PowerH.inits).
Proof.
  cbn. repeat constructor; cbn; unfold PowerH.TEST_NONE, PowerH.TEST_CORE,
    PowerH.TEST_CPUS, PowerH.TEST_PLATFORM, PowerH.TEST_DEVICES,
    PowerH.TEST_FREEZER; lia.
Qed.

Lemma pm_test_store_accepts_witness :
  PowerH.test_store "core" 0%nat = (4, 1%nat)
  /\ PowerH.test_store (String.append "freezer" (String newline "x")) 0%nat
     = (9, 5%nat).
Proof.
  split.
  - apply (pm_test_store_accepts_name
             PowerH.TEST_NONE PowerH.TEST_CORE PowerH.TEST_CPUS
             PowerH.TEST_PLATFORM PowerH.TEST_DEVICES PowerH.TEST_FREEZER
             PowerH.TEST_FIRST PowerH.TEST_MAX 22
             1%nat 0%nat "core" EmptyString power_h_levels_distinct).
    + right. left. reflexivity.
    + unfold PowerH.TEST_FIRST, PowerH.TEST_NONE, PowerH.TEST_MAX. lia.
    + left. reflexivity.
  - apply (pm_test_store_accepts_name
             PowerH.TEST_NONE PowerH.TEST_CORE PowerH.TEST_CPUS
             PowerH.TEST_PLATFORM PowerH.TEST_DEVICES PowerH.TEST_FREEZER
             PowerH.TEST_FIRST PowerH.TEST_MAX 22
             5%nat 0%nat "freezer" (String newline "x") power_h_levels_distinct).
    + do 5 right. left. reflexivity.
    + unfold PowerH.TEST_FIRST, PowerH.TEST_NONE, PowerH.TEST_MAX. lia.
    + right. exists "x"%string. reflexivity.
Defined.

Lemma pm_test_store_rejects_witness :
  PowerH.test_store "cor" 3%nat = (-22, 3%nat).
Proof.
  apply (pm_test_store_rejects_other_text
           PowerH.TEST_NONE PowerH.TEST_CORE PowerH.TEST_CPUS
           PowerH.TEST_PLATFORM PowerH.TEST_DEVICES PowerH.TEST_FREEZER
           PowerH.TEST_FIRST PowerH.TEST_MAX 22 "cor" 3%nat).
  - lia.
  - intros level nm Hin _.
    cbn in Hin. destruct Hin as [H|[H|[H|[H|[H|[H|[]]]]]]];
      injection H as _ <-; discriminate.
Defined.

Lemma pm_test_show_marks_witness :
  exists pre post : string,
    fst (PowerH.test_show 1%nat)
    = (pre ++ ("[" ++ "core" ++ "]") ++ post ++ String newline EmptyString)%string
    /\ snd (PowerH.test_show 1%nat)
       = Z.of_nat (String.length (fst (PowerH.test_show 1%nat))).
Proof.
  apply (pm_test_show_marks_level
           PowerH.TEST_NONE PowerH.TEST_CORE PowerH.TEST_CPUS
           PowerH.TEST_PLATFORM PowerH.TEST_DEVICES PowerH.TEST_FREEZER
           PowerH.TEST_FIRST PowerH.TEST_MAX
           1%nat "core" power_h_levels_distinct).
  - right. left. reflexivity.
  - unfold PowerH.TEST_FIRST, PowerH.TEST_NONE, PowerH.TEST_MAX. lia.
Defined.
